(** * Python_helper_scripts: clade ledgers and sample filtering, verified

    A shallow embedding of [Python_Data_File_Processing/auriclass_subgrouping.py]
    (ledger store, input loader, report parser, per-isolate processing
    loop) and of the set and filter functions of
    [Python_Data_File_Processing/filter_samples.py], with their properties.

    Conventions of the embedding.
    - A Python [str] is a Rocq [string]; a character is a code point below
      256.  Text files are opened in text mode on a POSIX system, so a file's
      content is the string that was written to it.
    - The ledger directory is a finite map from path to content ([gmap]); a
      path is bound exactly when [os.path.exists] holds for it.
    - [file_written_ids] is the script's global dictionary of sets.
    - [print] appends a [message] to the run's output.
    - [csv.reader] belongs to the Python standard library: a table enters
      the embedding as the list of rows the reader yields (a blank line
      yields the empty row).
    - The external [auriclass] process is a black box: a function from the
      reads path it is given to its exit status, its standard error and the
      state of [report.tsv] once it has returned. *)

From Stdlib Require Import ZArith Ascii String List Lia.
From stdpp Require Import base option list gmap strings.
Import ListNotations.
Local Open Scope string_scope.

(** * Part I: the programs *)

(** ** Python string operations used by the scripts *)

Module PyStr.

Definition TAB : string := String "009"%char EmptyString.

Definition LF : string := String "010"%char EmptyString.

Definition CR : string := String "013"%char EmptyString.

Definition is_tab (c : ascii) : bool := Ascii.eqb c "009"%char.

Definition is_lf (c : ascii) : bool := Ascii.eqb c "010"%char.

Definition is_cr (c : ascii) : bool := Ascii.eqb c "013"%char.

(** [str.isspace] on the code points below 256: TAB, LF, VT, FF, CR,
    FS, GS, RS, US, SPACE, NEL and NBSP. *)
Definition is_space (c : ascii) : bool :=
  match nat_of_ascii c with
  | 9 | 10 | 11 | 12 | 13 | 28 | 29 | 30 | 31 | 32 | 133 | 160 => true
  | _ => false
  end.

(** [s.lstrip()] *)
Fixpoint lstrip (s : string) : string :=
  match s with
  | EmptyString => EmptyString
  | String c s' => if is_space c then lstrip s' else s
  end.

(** [s.rstrip()] *)
Fixpoint rstrip (s : string) : string :=
  match s with
  | EmptyString => EmptyString
  | String c s' =>
      match rstrip s' with
      | EmptyString => if is_space c then EmptyString else String c EmptyString
      | r => String c r
      end
  end.

(** [s.strip()] *)
Definition strip (s : string) : string := rstrip (lstrip s).

(** [s.split("\t")[0]] *)
Fixpoint first_field (s : string) : string :=
  match s with
  | EmptyString => EmptyString
  | String c s' => if is_tab c then EmptyString else String c (first_field s')
  end.

(** [s.startswith(p)] *)
Fixpoint startswith (p s : string) : bool :=
  match p, s with
  | EmptyString, _ => true
  | String a p', String b s' => Ascii.eqb a b && startswith p' s'
  | String _ _, EmptyString => false
  end.

(** [s.endswith("/")] *)
Fixpoint ends_with_slash (s : string) : bool :=
  match s with
  | EmptyString => false
  | String c EmptyString => Ascii.eqb c "/"%char
  | String _ s' => ends_with_slash s'
  end.

(** [s.replace(" ", "_")] *)
Fixpoint replace_space_underscore (s : string) : string :=
  match s with
  | EmptyString => EmptyString
  | String c s' =>
      String (if Ascii.eqb c " "%char then "_"%char else c)
             (replace_space_underscore s')
  end.

(** [os.path.join(a, b)] of [posixpath]. *)
Definition path_join (a b : string) : string :=
  if startswith "/" b then b
  else if String.eqb a "" || ends_with_slash a then a ++ b
  else a ++ "/" ++ b.

Definition cons_line (c : ascii) (ls : list string) : list string :=
  match ls with
  | [] => [String c EmptyString]
  | l :: ls' => String c l :: ls'
  end.

(** [for l in f] on a text-mode file (universal newlines): the content
    is cut after each LF, CR or CR LF, every terminator reads as LF,
    and a last line without terminator is yielded as it is. *)
Fixpoint readlines (s : string) : list string :=
  match s with
  | EmptyString => []
  | String c s' =>
      if is_lf c then LF :: readlines s'
      else if is_cr c then
        match s' with
        | String c' s'' =>
            if is_lf c' then LF :: readlines s'' else LF :: readlines s'
        | EmptyString => [LF]
        end
      else cons_line c (readlines s')
  end.

End PyStr.
Import PyStr.

(** ** Run state and the primitives acting on it *)

(** What the script prints; each constructor stands for one [print] call. *)
Inductive message : Type :=
| MsgAlreadyExists (isolate_id filename : string)
    (* "{isolate_id} already exists in {filename}. Skipping." *)
| MsgMalformedRow (table : string) (row : list string)
    (* "Skipping malformed row in {table}: {row}" *)
| MsgRunning (isolate_id : string) (cmd : list string)
    (* "Running auriclass for {isolate_id}: {' '.join(cmd)}" *)
| MsgAuriclassError (isolate_id stderr : string)
    (* "Error running auriclass for {isolate_id}:\n{result.stderr}" *)
| MsgReportNotFound (report_path isolate_id : string)
    (* "Report file {report_path} not found for {isolate_id}" *)
| MsgNoHeader (report_path : string)
    (* "No header found in {report_path}" *)
| MsgNoColumns (report_path : string)
    (* "Report file {report_path} does not contain expected columns" *)
| MsgExtractedClade (clade : string)
    (* "Extracted clade: {clade}" *)
| MsgProcessing (isolate_id : string)
    (* "\nProcessing sample {isolate_id} ..." *)
| MsgSkipAuriclassError (isolate_id : string)
    (* "Skipping {isolate_id} due to auriclass error." *)
| MsgSkipNoClade (isolate_id : string)
    (* "Skipping {isolate_id} because no clade was extracted." *)
| MsgWarnNotAllowed (clade isolate_id : string)
    (* "Warning: Clade '{clade}' for {isolate_id} is not in the allowed list. Skipping sample." *)
| MsgWarnNoContigs (isolate_id : string)
    (* "Warning: No contigs entry found for {isolate_id}" *)
| MsgAssigned (isolate_id clade : string)
    (* "Assigned sample {isolate_id} to {clade} and updated files:" *)
| MsgUpdatedFile (filename : string)
    (* "  - {filename}" *)
| MsgCompleted.

    (* "\nPipeline completed." *)

(** A table as [csv.reader] yields it. *)
Abbreviation csv_rows := (list (list string)).

(** One [subprocess.run] of the classifier, as the script observes it. *)
Record classifier_run : Type := ClassifierRun {
  returncode : Z;
  stderr : string;
  report_after : option csv_rows  (* [report.tsv] after the call, if it exists *)
}.

Record state : Type := State {
  fs : gmap string string;                     (* files: path to content *)
  file_written_ids : gmap string (gset string);(* the global dictionary *)
  report_tsv : option csv_rows;                (* [report.tsv] in the cwd *)
  out : list message                           (* standard output *)
}.

Definition M (A : Type) : Type := state → A * state.

#[export] Instance M_ret : MRet M := λ A x st, (x, st).

#[export] Instance M_bind : MBind M :=
  λ A B f m st, let '(x, st') := m st in f x st'.

Definition exec {A} (m : M A) (st : state) : state := (m st).2.

Definition eval {A} (m : M A) (st : state) : A := (m st).1.

Definition print (msg : message) : M unit :=
  λ st, (tt, State (fs st) (file_written_ids st) (report_tsv st) (out st ++ [msg])).

(** [os.path.exists(path)] *)
Definition path_exists (path : string) : M bool :=
  λ st, (bool_decide (is_Some (fs st !! path)), st).

(** The whole text of an existing file. *)
Definition read_text (path : string) : M string :=
  λ st, (default "" (fs st !! path), st).

(** [open(path, "w").write(text)] *)
Definition write_text (path text : string) : M unit :=
  λ st, (tt, State (<[path := text]> (fs st)) (file_written_ids st)
                   (report_tsv st) (out st)).

(** [open(path, "a").write(text)]: the file is created when absent. *)
Definition append_text (path text : string) : M unit :=
  λ st, (tt, State (<[path := default "" (fs st !! path) ++ text]> (fs st))
                   (file_written_ids st) (report_tsv st) (out st)).

(** [file_written_ids.get(filename)] and [file_written_ids[filename] = ids] *)
Definition get_ids (filename : string) : M (option (gset string)) :=
  λ st, (file_written_ids st !! filename, st).

Definition set_ids (filename : string) (ids : gset string) : M unit :=
  λ st, (tt, State (fs st) (<[filename := ids]> (file_written_ids st))
                   (report_tsv st) (out st)).

Fixpoint for_each {A} (body : A → M unit) (l : list A) : M unit :=
  match l with
  | [] => mret tt
  | x :: l' => body x ;; for_each body l'
  end.

(** ** The ledger store *)

Definition HEADER_LINE : string := "Isolate_ID" ++ TAB ++ "Clade".

(** [header_line is not None and l.strip() == header_line.strip()] *)
Definition is_header (header_line : option string) (l : string) : bool :=
  match header_line with
  | Some h => String.eqb (strip l) (strip h)
  | None => false
  end.

(** One turn of the loop that reads the entries of an existing file. *)
Definition load_line (header_line : option string)
    (existing_ids : gset string) (l : string) : gset string :=
  if String.eqb (strip l) "" then existing_ids
  else if is_header header_line l then existing_ids
  else {[ strip (first_field l) ]} ∪ existing_ids.

Definition load_existing_ids (header_line : option string) (content : string)
    : gset string :=
  fold_left (load_line header_line) (readlines content) ∅.

Definition append_line_if_not_exists
    (filename line isolate_id : string) (header_line : option string) : M bool :=
  loaded ← get_ids filename;
  (match loaded with
   | Some _ => mret tt
   | None =>
       ex ← path_exists filename;
       (if ex : bool then
          content ← read_text filename;
          set_ids filename (load_existing_ids header_line content)
        else set_ids filename ∅)
   end) ;;
  ids ← get_ids filename;
  if bool_decide (isolate_id ∈ default ∅ ids) then
    print (MsgAlreadyExists isolate_id filename) ;;
    mret false
  else
    append_text filename line ;;
    set_ids filename ({[ isolate_id ]} ∪ default ∅ ids) ;;
    mret true.

(** ** The input loader *)

(** [reads_dict[k] = v] on an insertion-ordered dictionary: a key that
    is present keeps its place and takes the new value. *)
Fixpoint dict_set {V} (d : list (string * V)) (k : string) (v : V)
    : list (string * V) :=
  match d with
  | [] => [(k, v)]
  | (k', v') :: d' =>
      if String.eqb k' k then (k, v) :: d' else (k', v') :: dict_set d' k v
  end.

(** [not row or row[0].startswith("#")] *)
Definition skipped_row (row : list string) : bool :=
  match row with
  | [] => true
  | field0 :: _ => startswith "#" field0
  end.

Definition Reads_dict : Type := list (string * (string * string)).

Definition load_reads_row (READS_TAB : string) (reads_dict : Reads_dict)
    (row : list string) : M Reads_dict :=
  if skipped_row row then mret reads_dict
  else match row with
       | [isolate_id; reads1; reads2] =>
           mret (dict_set reads_dict isolate_id (reads1, reads2))
       | _ => print (MsgMalformedRow READS_TAB row) ;; mret reads_dict
       end.

Definition load_contigs_row (CONTIGS_TAB : string)
    (contigs_dict : gmap string string) (row : list string)
    : M (gmap string string) :=
  if skipped_row row then mret contigs_dict
  else match row with
       | [isolate_id; contigs] => mret (<[isolate_id := contigs]> contigs_dict)
       | _ => print (MsgMalformedRow CONTIGS_TAB row) ;; mret contigs_dict
       end.

Fixpoint fold_rows {D} (step : D → list string → M D) (d : D)
    (rows : csv_rows) : M D :=
  match rows with
  | [] => mret d
  | row :: rows' => d' ← step d row; fold_rows step d' rows'
  end.

Definition load_reads (READS_TAB : string) (rows : csv_rows) : M Reads_dict :=
  fold_rows (load_reads_row READS_TAB) [] rows.

Definition load_contigs (CONTIGS_TAB : string) (rows : csv_rows)
    : M (gmap string string) :=
  fold_rows (load_contigs_row CONTIGS_TAB) ∅ rows.

(** ** The classifier adapter and the processing loop *)

Definition allowed_clades : list string :=
  ["Clade I"; "Clade II"; "Clade III"; "Clade IV"; "Clade V"; "Clade VI"].

Definition REPORT_PATH : string := "report.tsv".

(** The report is read as the rows [csv.reader] yields from it:
    [next(reader, None)] twice, the header first.  The script calls the
    function only once [run_auriclass] has found the file. *)
Definition parse_report (report_path : string) : M (option string) :=
  λ st,
    match default [] (report_tsv st) with
    | [] => (print (MsgNoHeader report_path) ;; mret None) st
    | header :: data =>
        match data with
        | (_ :: field1 :: _) :: _ =>
            let clade := strip field1 in
            (print (MsgExtractedClade clade) ;; mret (Some clade)) st
        | _ => (print (MsgNoColumns report_path) ;; mret None) st
        end
    end.

Section Pipeline.

(** Command-line arguments. *)
Variables READS_TAB CONTIGS_TAB CLADE_DIR : string.

(** The external classifier, by the reads path it is started on. *)
Variable auriclass : string → classifier_run.

Definition SUMMARY_FILE : string := path_join CLADE_DIR "Clade_designations.tab".

(** [subprocess.run(["auriclass", reads1_path], ...)] *)
Definition subprocess_run (reads1_path : string) : M classifier_run :=
  λ st, let r := auriclass reads1_path in
        (r, State (fs st) (file_written_ids st) (report_after r) (out st)).

(** The summary file is created with its header when it does not exist. *)
Definition create_summary_file : M unit :=
  ex ← path_exists SUMMARY_FILE;
  if ex : bool then mret tt
  else write_text SUMMARY_FILE (HEADER_LINE ++ LF) ;;
       set_ids SUMMARY_FILE ∅.

Definition run_auriclass (reads1_path isolate_id : string) : M (option string) :=
  print (MsgRunning isolate_id ["auriclass"; reads1_path]) ;;
  result ← subprocess_run reads1_path;
  if negb (returncode result =? 0)%Z then
    print (MsgAuriclassError isolate_id (stderr result)) ;;
    mret None
  else
    st ← (λ st, (report_tsv st, st));
    match st with
    | None => print (MsgReportNotFound REPORT_PATH isolate_id) ;; mret None
    | Some _ => mret (Some REPORT_PATH)
    end.

Definition clade_reads_file (clade : string) : string :=
  path_join CLADE_DIR (replace_space_underscore clade ++ ".reads.tab").

Definition clade_contigs_file (clade : string) : string :=
  path_join CLADE_DIR (replace_space_underscore clade ++ ".contigs.tab").

(** The three ledger writes of an isolate whose clade is allowed. *)
Definition commit_sample (contigs_dict : gmap string string)
    (isolate_id reads1 reads2 clade : string) : M unit :=
  let reads_line := isolate_id ++ TAB ++ reads1 ++ TAB ++ reads2 ++ LF in
  let contigs_path := contigs_dict !! isolate_id in
  let contigs_line :=
    match contigs_path with
    | Some p => if String.eqb p "" then None
                else Some (isolate_id ++ TAB ++ p ++ LF)
    | None => None
    end in
  let summary_line := isolate_id ++ TAB ++ clade ++ LF in
  append_line_if_not_exists (clade_reads_file clade) reads_line isolate_id None ;;
  (match contigs_line with
   | Some l =>
       append_line_if_not_exists (clade_contigs_file clade) l isolate_id None ;;
       mret tt
   | None => print (MsgWarnNoContigs isolate_id)
   end) ;;
  append_line_if_not_exists SUMMARY_FILE summary_line isolate_id (Some HEADER_LINE) ;;
  print (MsgAssigned isolate_id clade) ;;
  print (MsgUpdatedFile (clade_reads_file clade)) ;;
  print (MsgUpdatedFile (clade_contigs_file clade)) ;;
  print (MsgUpdatedFile SUMMARY_FILE).

(** The body of [for isolate_id, (reads1, reads2) in reads_dict.items()]. *)
Definition process_sample (contigs_dict : gmap string string)
    (item : string * (string * string)) : M unit :=
  let '(isolate_id, (reads1, reads2)) := item in
  print (MsgProcessing isolate_id) ;;
  report_path ← run_auriclass reads1 isolate_id;
  match report_path with
  | None => print (MsgSkipAuriclassError isolate_id)
  | Some report_path =>
      clade ← parse_report report_path;
      match clade with
      | None => print (MsgSkipNoClade isolate_id)
      | Some clade =>
          if negb (bool_decide (clade ∈ allowed_clades)) then
            print (MsgWarnNotAllowed clade isolate_id)
          else commit_sample contigs_dict isolate_id reads1 reads2 clade
      end
  end.

Definition main_loop (reads_dict : Reads_dict)
    (contigs_dict : gmap string string) : M unit :=
  for_each (process_sample contigs_dict) reads_dict.

(** The script from the creation of the summary file to its last line. *)
Definition main (reads_rows contigs_rows : csv_rows) : M unit :=
  create_summary_file ;;
  reads_dict ← load_reads READS_TAB reads_rows;
  contigs_dict ← load_contigs CONTIGS_TAB contigs_rows;
  main_loop reads_dict contigs_dict ;;
  print MsgCompleted.

(** A fresh process started on the files [files]: the dictionary of
    known identifiers is empty and nothing has been printed. *)
Definition start (files : gmap string string) (report : option csv_rows) : state :=
  State files ∅ report [].

Definition run_pipeline (files : gmap string string) (report : option csv_rows)
    (reads_rows contigs_rows : csv_rows) : state :=
  exec (main reads_rows contigs_rows) (start files report).

End Pipeline.

(** ** filter_samples.py: samples removed from an alignment

    [load_remove_list] and [filter_alignment] of
    [Python_Data_File_Processing/filter_samples.py].  The FASTA parser
    and writer belong to Biopython: an alignment enters as the list of
    records [SeqIO.parse] yields and leaves as the list of records given
    to [SeqIO.write]. *)

(** [{line.strip() for line in f if line.strip()}] *)
Definition load_remove_list (content : string) : gset string :=
  list_to_set
    (map strip
       (List.filter (λ line, negb (String.eqb (strip line) ""))
          (readlines content))).

(** A record of [SeqIO.parse]. *)
Record seq_record : Type := SeqRecord {
  rec_id : string;
  rec_description : string;
  rec_seq : string
}.

(** The records [filter_alignment] hands to [SeqIO.write]:
    [rec for rec in records if rec.id not in remove_ids]. *)
Definition filter_alignment (records : list seq_record)
    (remove_ids : gset string) : list seq_record :=
  List.filter (λ rec, negb (bool_decide (rec_id rec ∈ remove_ids))) records.

(** * Part II: notions the statements are written in *)

(** ** Strings *)

Fixpoint all_space (s : string) : bool :=
  match s with
  | EmptyString => true
  | String c s' => is_space c && all_space s'
  end.

Definition first_is_space (s : string) : bool :=
  match s with
  | EmptyString => false
  | String c _ => is_space c
  end.

Fixpoint last_is_space (s : string) : bool :=
  match s with
  | EmptyString => false
  | String c EmptyString => is_space c
  | String _ s' => last_is_space s'
  end.

Fixpoint no_tab (s : string) : bool :=
  match s with
  | EmptyString => true
  | String c s' => negb (is_tab c) && no_tab s'
  end.

(** A string without line break. *)
Fixpoint no_newline (s : string) : bool :=
  match s with
  | EmptyString => true
  | String c s' => negb (is_lf c) && negb (is_cr c) && no_newline s'
  end.

(** An identifier that reads back from a ledger row as it was written:
    not empty, no white space at either end, no tab and no line break. *)
Definition clean_id (s : string) : bool :=
  negb (String.eqb s "") && negb (first_is_space s) && negb (last_is_space s)
  && no_tab s && no_newline s.

(** A file that is empty or ends with a line feed. *)
Fixpoint terminated (s : string) : bool :=
  match s with
  | EmptyString => true
  | String c EmptyString => is_lf c
  | String _ s' => terminated s'
  end.

(** A line without its final line feed. *)
Fixpoint chomp (l : string) : string :=
  match l with
  | EmptyString => EmptyString
  | String c EmptyString => if is_lf c then EmptyString else l
  | String c l' => String c (chomp l')
  end.

(** ** Files, rows and sets of known identifiers *)

(** The identifiers a call on [filename] finds known: the cached set
    when the file was referenced before, otherwise the set loaded from
    the file, the empty set for a file that does not exist. *)
Definition known_ids (st : state) (filename : string)
    (header_line : option string) : gset string :=
  match file_written_ids st !! filename with
  | Some ids => ids
  | None =>
      match fs st !! filename with
      | Some content => load_existing_ids header_line content
      | None => ∅
      end
  end.

Definition skip_state (st : state) (filename isolate_id : string)
    (header_line : option string) : state :=
  State (fs st) (<[filename := known_ids st filename header_line]> (file_written_ids st))
        (report_tsv st) (out st ++ [MsgAlreadyExists isolate_id filename]).

Definition commit_state (st : state) (filename line isolate_id : string)
    (header_line : option string) : state :=
  State (<[filename := default "" (fs st !! filename) ++ line]> (fs st))
        (<[filename := {[ isolate_id ]} ∪ known_ids st filename header_line]>
           (file_written_ids st))
        (report_tsv st) (out st).

Definition file_content (st : state) (filename : string) : string :=
  default "" (fs st !! filename).

(** An identifier is kept by the loading loop exactly when some line of
    the file that is neither blank nor the header has it as its first
    field, white space at both ends apart. *)
Definition contributes (header_line : option string) (l x : string) : Prop :=
  String.eqb (strip l) "" = false ∧ is_header header_line l = false ∧
  x = strip (first_field l).

(** The index in the words of the specification: blank lines and a
    line that is exactly [header_line] are skipped, and the first
    tab-delimited field of every other line is a known identifier. *)
Definition spec_index_line (header_line : option string)
    (ids : gset string) (l : string) : gset string :=
  let text := chomp l in
  if String.eqb (strip text) "" then ids
  else if match header_line with
          | Some h => String.eqb text h
          | None => false
          end then ids
  else {[ first_field text ]} ∪ ids.

Definition spec_membership_index (header_line : option string)
    (content : string) : gset string :=
  fold_left (spec_index_line header_line) (readlines content) ∅.

(** The first tab-delimited field of every row of a file. *)
Definition first_fields (content : string) : list string :=
  map (λ l, first_field (chomp l)) (readlines content).

(** The line is kept by the loading loop of the ledger store. *)
Definition kept_line (header_line : option string) (l : string) : bool :=
  negb (String.eqb (strip l) "") && negb (is_header header_line l).

(** The identifiers the loading loop meets, in file order, one per row. *)
Definition file_ids (header_line : option string) (content : string)
    : list string :=
  map (λ l, strip (first_field l))
      (List.filter (kept_line header_line) (readlines content)).

(** Two states with the same files and the same sets of known
    identifiers; the output and the report may differ. *)
Definition same_ledgers (st1 st2 : state) : Prop :=
  fs st1 = fs st2 ∧ file_written_ids st1 = file_written_ids st2.

Definition with_out (st : state) (msgs : list message) : state :=
  State (fs st) (file_written_ids st) (report_tsv st) (out st ++ msgs).

Definition report_malformed (table : string) (row : list string) (st : state)
    : state :=
  if skipped_row row then st
  else State (fs st) (file_written_ids st) (report_tsv st)
             (out st ++ [MsgMalformedRow table row]).

Definition dir_prefix (dir : string) : string :=
  if String.eqb dir "" || ends_with_slash dir then dir else dir ++ "/".

Definition reads_line (isolate_id reads1 reads2 : string) : string :=
  isolate_id ++ TAB ++ reads1 ++ TAB ++ reads2 ++ LF.

Definition summary_line (isolate_id clade : string) : string :=
  isolate_id ++ TAB ++ clade ++ LF.

(** The thirteen files a run may write: the summary file and, for each
    allowed clade, its reads file and its contigs file. *)
Definition ledger_targets (CLADE_DIR : string) : list string :=
  SUMMARY_FILE CLADE_DIR ::
  flat_map (λ clade, [clade_reads_file CLADE_DIR clade;
                      clade_contigs_file CLADE_DIR clade]) allowed_clades.

(** A call of the ledger store: file, line and identifier. *)
Definition ledger_call : Type := string * string * string.

(** A call with its header argument. *)
Definition raw_call : Type := string * string * string * option string.

Definition do_raw_call (c : raw_call) : M unit :=
  let '(filename, line, isolate_id, header_line) := c in
  append_line_if_not_exists filename line isolate_id header_line ;; mret tt.

Section LedgerCalls.
Variable hdr : string → option string.  (* the header a file is read with *)

Definition ids_in_file (st : state) (filename : string) : gset string :=
  load_existing_ids (hdr filename) (file_content st filename).

(** Every file ends with a line feed, and a set of known identifiers
    that has been loaded is the set its file gives. *)
Definition consistent (st : state) : Prop :=
  ∀ f, terminated (file_content st f) = true ∧
       ∀ ids, file_written_ids st !! f = Some ids → ids = ids_in_file st f.

(** The row [isolate_id TAB payload LF] of a clean identifier. *)
Definition well_formed_call (c : ledger_call) : Prop :=
  let '(filename, line, isolate_id) := c in
  ∃ payload,
    line = isolate_id ++ TAB ++ payload ++ LF ∧
    clean_id isolate_id = true ∧ no_newline payload = true ∧
    is_header (hdr filename) line = false.

Definition do_call (c : ledger_call) : M unit :=
  let '(filename, line, isolate_id) := c in
  append_line_if_not_exists filename line isolate_id (hdr filename) ;; mret tt.

Definition do_calls (cs : list ledger_call) : M unit := for_each do_call cs.

(** The identifier of the call is in the file. *)
Definition covered (st : state) (c : ledger_call) : Prop :=
  let '(filename, _, isolate_id) := c in isolate_id ∈ ids_in_file st filename.

End LedgerCalls.

Definition duplicate_free (hdr : string → option string) (st : state) : Prop :=
  ∀ f, NoDup (file_ids (hdr f) (file_content st f)).

(** ** The processing loop as a sequence of ledger calls *)

Section CallsOfARun.
Variable CLADE_DIR : string.
Variable auriclass : string → classifier_run.

(** The state in which the ledger writes of a classified isolate start. *)
Definition classified_state (st : state) (isolate_id reads1 clade : string)
    : state :=
  State (fs st) (file_written_ids st) (report_after (auriclass reads1))
        (out st ++ [MsgProcessing isolate_id;
                    MsgRunning isolate_id ["auriclass"; reads1];
                    MsgExtractedClade clade]).

(** An isolate without a usable contigs path: the state after its
    two ledger calls and the warning between them. *)
Definition no_contigs_state (st : state)
    (isolate_id reads1 reads2 clade : string) : state :=
  exec (append_line_if_not_exists (SUMMARY_FILE CLADE_DIR)
          (summary_line isolate_id clade) isolate_id (Some HEADER_LINE))
    (exec (print (MsgWarnNoContigs isolate_id))
       (exec (append_line_if_not_exists (clade_reads_file CLADE_DIR clade)
                (reads_line isolate_id reads1 reads2) isolate_id None) st)).

(** The summary file is read with the header, the clade files without. *)
Definition summary_header (filename : string) : option string :=
  if decide (filename = SUMMARY_FILE CLADE_DIR) then Some HEADER_LINE else None.

(** The clade under which an isolate is committed, if it is. *)
Definition sample_clade (reads1 : string) : option string :=
  let result := auriclass reads1 in
  if negb (returncode result =? 0)%Z then None
  else match report_after result with
       | Some (header :: (_ :: field1 :: _) :: _) =>
           if bool_decide (strip field1 ∈ allowed_clades)
           then Some (strip field1) else None
       | _ => None
       end.

(** The calls of the ledger store that one isolate gives rise to. *)
Definition ledger_calls (contigs_dict : gmap string string)
    (item : string * (string * string)) : list ledger_call :=
  let '(isolate_id, (reads1, reads2)) := item in
  match sample_clade reads1 with
  | None => []
  | Some clade =>
      (clade_reads_file CLADE_DIR clade,
       isolate_id ++ TAB ++ reads1 ++ TAB ++ reads2 ++ LF, isolate_id) ::
      match contigs_dict !! isolate_id with
      | Some p =>
          if String.eqb p "" then []
          else [(clade_contigs_file CLADE_DIR clade,
                 isolate_id ++ TAB ++ p ++ LF, isolate_id)]
      | None => []
      end ++
      [(SUMMARY_FILE CLADE_DIR, isolate_id ++ TAB ++ clade ++ LF, isolate_id)]
  end.

Definition all_calls (contigs_dict : gmap string string)
    (reads_dict : Reads_dict) : list ledger_call :=
  concat (map (ledger_calls contigs_dict) reads_dict).

End CallsOfARun.

(** ** The loaders as pure functions, and clean tables *)

Definition reads_entry (reads_dict : Reads_dict) (row : list string) : Reads_dict :=
  if skipped_row row then reads_dict
  else match row with
       | [isolate_id; reads1; reads2] => dict_set reads_dict isolate_id (reads1, reads2)
       | _ => reads_dict
       end.

Definition contigs_entry (contigs_dict : gmap string string) (row : list string)
    : gmap string string :=
  if skipped_row row then contigs_dict
  else match row with
       | [isolate_id; contigs] => <[isolate_id := contigs]> contigs_dict
       | _ => contigs_dict
       end.

Definition reads_entries (rows : csv_rows) : Reads_dict :=
  fold_left reads_entry rows [].

Definition contigs_entries (rows : csv_rows) : gmap string string :=
  fold_left contigs_entry rows ∅.

Definition clean_item (item : string * (string * string)) : Prop :=
  clean_id item.1 = true ∧ no_newline item.2.1 = true ∧ no_newline item.2.2 = true.

Definition clean_contigs (contigs_dict : gmap string string) : Prop :=
  ∀ isolate_id p, contigs_dict !! isolate_id = Some p → no_newline p = true.

(** A reads row that is loaded has a clean identifier and paths
    without line break. *)
Definition clean_reads_row (row : list string) : bool :=
  skipped_row row ||
  match row with
  | [isolate_id; reads1; reads2] =>
      clean_id isolate_id && no_newline reads1 && no_newline reads2
  | _ => true
  end.

(** A contigs row that is loaded has a path without line break. *)
Definition clean_contigs_row (row : list string) : bool :=
  skipped_row row ||
  match row with
  | [_; contigs] => no_newline contigs
  | _ => true
  end.

(** ** Concrete inputs *)

Definition auriclass_clade_II (reads1_path : string) : classifier_run :=
  ClassifierRun 0 "" (Some [["Sample"; "Clade"]; ["sample"; "Clade II"]]).

Definition auriclass_clade_VII (reads1_path : string) : classifier_run :=
  ClassifierRun 0 "" (Some [["Sample"; "Clade"]; ["sample"; "Clade VII"]]).

Definition auriclass_fails (reads1_path : string) : classifier_run :=
  ClassifierRun 1 "auriclass: no such file" None.

Definition auriclass_header_only (reads1_path : string) : classifier_run :=
  ClassifierRun 0 "" (Some [["Sample"; "Clade"]]).

Definition padded_summary : string :=
  HEADER_LINE ++ LF ++ "S1 " ++ TAB ++ "Clade II" ++ LF.

(** A reads row whose identifier carries a trailing blank. *)
Definition padded_reads_row : string :=
  "S1 " ++ TAB ++ "r1.fq.gz" ++ TAB ++ "r2.fq.gz" ++ LF.

Definition padded_summary_row : string := "S1 " ++ TAB ++ "Clade II" ++ LF.

Definition padded_reads_table : csv_rows := [["S1 "; "r1.fq.gz"; "r2.fq.gz"]].

(** The files left by a run of the pipeline on [padded_reads_table],
    started on the files [files]. *)
Definition padded_run (files : gmap string string) (report : option csv_rows)
    : state :=
  run_pipeline "reads.tab" "contigs.tab" "clades" auriclass_clade_II
    files report padded_reads_table [].

Definition clean_reads_table : csv_rows :=
  [["# isolate"; "reads1"; "reads2"]; ["S1"; "r1.fq.gz"; "r2.fq.gz"];
   ["S2"; "s1.fq.gz"; "s2.fq.gz"]].

Definition clean_contigs_table : csv_rows := [["S1"; "S1.fa"]].

(** ** Ledgers that agree with each other *)

(** The identifiers of the summary file are those of the reads files of
    the allowed clades, and the contigs file of a clade holds only
    identifiers of its reads file. *)
Definition coupled (CLADE_DIR : string) (st : state) : Prop :=
  let ids := ids_in_file (summary_header CLADE_DIR) st in
  (∀ x, x ∈ ids (SUMMARY_FILE CLADE_DIR) ↔
        ∃ clade, clade ∈ allowed_clades ∧ x ∈ ids (clade_reads_file CLADE_DIR clade)) ∧
  (∀ clade, clade ∈ allowed_clades →
     ids (clade_contigs_file CLADE_DIR clade) ⊆ ids (clade_reads_file CLADE_DIR clade)).

(** A report from which no clade is extracted. *)
Definition unparseable (rows : csv_rows) : Prop :=
  (List.length rows < 2)%nat ∨
  ∃ row, nth_error rows 1 = Some row ∧ (List.length row < 2)%nat.

(** The isolate is skipped: the classifier fails, its report is missing
    or cannot be parsed, or the clade it reports is not allowed. *)
Definition skipped_sample (auriclass : string → classifier_run)
    (reads1 : string) : Prop :=
  let result := auriclass reads1 in
  returncode result ≠ 0%Z ∨
  report_after result = None ∨
  (∃ rows, report_after result = Some rows ∧ unparseable rows) ∨
  (∃ header f0 f1 more rest,
     report_after result = Some (header :: (f0 :: f1 :: more) :: rest) ∧
     strip f1 ∉ allowed_clades).

(** * Part III: properties *)

(** ** Strings *)

Lemma append_cons c (s t : string) : String c s ++ t = String c (s ++ t).
Proof. reflexivity. Qed.

Lemma append_nil_l (t : string) : "" ++ t = t.
Proof. reflexivity. Qed.

Lemma append_nil_r (s : string) : s ++ "" = s.
Proof. induction s as [|c s IH]; [done|]. by rewrite append_cons, IH. Qed.

Lemma append_assoc (s t u : string) : (s ++ t) ++ u = s ++ t ++ u.
Proof. induction s as [|c s IH]; [done|]. by rewrite !append_cons, IH. Qed.

(** ** The state monad *)

Lemma exec_bind {A B} (m : M A) (k : A → M B) st :
  exec (m ≫= k) st = exec (k (eval m st)) (exec m st).
Proof. unfold exec, eval, mbind, M_bind. by destruct (m st). Qed.

Lemma eval_bind {A B} (m : M A) (k : A → M B) st :
  eval (m ≫= k) st = eval (k (eval m st)) (exec m st).
Proof. unfold exec, eval, mbind, M_bind. by destruct (m st). Qed.

Lemma exec_print msg st :
  exec (print msg) st =
  State (fs st) (file_written_ids st) (report_tsv st) (out st ++ [msg]).
Proof. done. Qed.

Lemma exec_for_each_cons {A} (body : A → M unit) x l st :
  exec (for_each body (x :: l)) st = exec (for_each body l) (exec (body x) st).
Proof. simpl. by rewrite exec_bind. Qed.

Lemma exec_for_each_app {A} (body : A → M unit) l1 l2 st :
  exec (for_each body (l1 ++ l2)) st =
  exec (for_each body l2) (exec (for_each body l1) st).
Proof.
  revert st. induction l1 as [|x l1 IH]; intros st; [done|].
  rewrite <- app_comm_cons, !exec_for_each_cons. apply IH.
Qed.

(** ** The ledger store: what one call does *)

Lemma append_line_if_not_exists_eq filename line isolate_id header_line st :
  append_line_if_not_exists filename line isolate_id header_line st =
  if bool_decide (isolate_id ∈ known_ids st filename header_line)
  then (false, skip_state st filename isolate_id header_line)
  else (true, commit_state st filename line isolate_id header_line).
Proof.
  unfold append_line_if_not_exists, known_ids, skip_state, commit_state.
  unfold known_ids, mbind, M_bind, mret, M_ret, get_ids, set_ids,
    path_exists, read_text, append_text, print; simpl.
  destruct (file_written_ids st !! filename) as [ids|] eqn:Hidx; simpl.
  - rewrite Hidx; simpl.
    case_bool_decide; simpl; [|done].
    by rewrite insert_id.
  - destruct (fs st !! filename) as [content|] eqn:Hfs; simpl;
      rewrite ?Hfs, lookup_insert_eq; simpl;
      case_bool_decide; simpl; rewrite ?Hfs, ?insert_insert_eq; done.
Qed.

(** Effect of one call on the file it is about. *)
Lemma append_exec filename line isolate_id header_line st :
  exec (append_line_if_not_exists filename line isolate_id header_line) st =
  if bool_decide (isolate_id ∈ known_ids st filename header_line)
  then skip_state st filename isolate_id header_line
  else commit_state st filename line isolate_id header_line.
Proof.
  unfold exec. rewrite append_line_if_not_exists_eq. by case_bool_decide.
Qed.

Lemma append_eval filename line isolate_id header_line st :
  eval (append_line_if_not_exists filename line isolate_id header_line) st =
  negb (bool_decide (isolate_id ∈ known_ids st filename header_line)).
Proof.
  unfold eval. rewrite append_line_if_not_exists_eq. by case_bool_decide.
Qed.

Lemma append_fs_same filename line isolate_id header_line st :
  fs (exec (append_line_if_not_exists filename line isolate_id header_line) st)
    !! filename =
  if bool_decide (isolate_id ∈ known_ids st filename header_line)
  then fs st !! filename
  else Some (default "" (fs st !! filename) ++ line).
Proof.
  rewrite append_exec. case_bool_decide; simpl; [done|].
  by rewrite lookup_insert_eq.
Qed.

Lemma append_fs_other filename line isolate_id header_line st other :
  filename ≠ other →
  fs (exec (append_line_if_not_exists filename line isolate_id header_line) st)
    !! other = fs st !! other.
Proof.
  intros Hne. rewrite append_exec. case_bool_decide; simpl; [done|].
  by rewrite lookup_insert_ne.
Qed.

Lemma append_ids_same filename line isolate_id header_line st :
  ∃ ids,
    file_written_ids
      (exec (append_line_if_not_exists filename line isolate_id header_line) st)
      !! filename = Some ids ∧
    isolate_id ∈ ids ∧ known_ids st filename header_line ⊆ ids.
Proof.
  rewrite append_exec. case_bool_decide; simpl;
    rewrite lookup_insert_eq; eexists; (split; [done|]); set_solver.
Qed.

Lemma append_ids_other filename line isolate_id header_line st other :
  filename ≠ other →
  file_written_ids
    (exec (append_line_if_not_exists filename line isolate_id header_line) st)
    !! other = file_written_ids st !! other.
Proof.
  intros Hne. rewrite append_exec. case_bool_decide; simpl;
    by rewrite lookup_insert_ne.
Qed.

Lemma append_known_other filename line isolate_id header_line st other h :
  filename ≠ other →
  known_ids
    (exec (append_line_if_not_exists filename line isolate_id header_line) st)
    other h = known_ids st other h.
Proof.
  intros Hne. unfold known_ids.
  by rewrite append_ids_other, append_fs_other.
Qed.

Lemma append_report filename line isolate_id header_line st :
  report_tsv (exec (append_line_if_not_exists filename line isolate_id header_line) st)
  = report_tsv st.
Proof. rewrite append_exec. by case_bool_decide. Qed.

Lemma append_out filename line isolate_id header_line st :
  out (exec (append_line_if_not_exists filename line isolate_id header_line) st) =
  (out st ++ (if bool_decide (isolate_id ∈ known_ids st filename header_line)
              then [MsgAlreadyExists isolate_id filename] else []))%list.
Proof.
  rewrite append_exec. case_bool_decide; simpl; [done|].
  by rewrite app_nil_r.
Qed.

(** ** Names of the ledger files *)

Lemma path_join_relative dir name :
  startswith "/" name = false → path_join dir name = dir_prefix dir ++ name.
Proof.
  intros Hrel. unfold path_join, dir_prefix. rewrite Hrel.
  destruct (String.eqb dir "" || ends_with_slash dir); [done|].
  by rewrite append_assoc.
Qed.

Lemma path_join_inj dir a b :
  startswith "/" a = false → startswith "/" b = false →
  path_join dir a = path_join dir b → a = b.
Proof.
  intros Ha Hb. rewrite !path_join_relative by done.
  apply (inj (String.app (dir_prefix dir))).
Qed.

Lemma allowed_clades_cases clade :
  clade ∈ allowed_clades →
  clade = "Clade I" ∨ clade = "Clade II" ∨ clade = "Clade III" ∨
  clade = "Clade IV" ∨ clade = "Clade V" ∨ clade = "Clade VI".
Proof.
  unfold allowed_clades. rewrite !elem_of_cons, elem_of_nil. tauto.
Qed.

Section LedgerNames.
Variable CLADE_DIR : string.

Lemma ledger_files_distinct clade :
  clade ∈ allowed_clades →
  clade_reads_file CLADE_DIR clade ≠ clade_contigs_file CLADE_DIR clade ∧
  clade_reads_file CLADE_DIR clade ≠ SUMMARY_FILE CLADE_DIR ∧
  clade_contigs_file CLADE_DIR clade ≠ SUMMARY_FILE CLADE_DIR.
Proof.
  intros Hin. unfold clade_reads_file, clade_contigs_file, SUMMARY_FILE.
  apply allowed_clades_cases in Hin.
  repeat split; intros Heq; apply path_join_inj in Heq;
    destruct Hin as [->|[->|[->|[->|[->| ->]]]]]; done.
Qed.

End LedgerNames.

(** ** One iteration of the processing loop *)

Section Iteration.
Variable CLADE_DIR : string.
Variable auriclass : string → classifier_run.

Lemma process_sample_failure contigs_dict isolate_id reads1 reads2 st :
  returncode (auriclass reads1) ≠ 0%Z ∨ report_after (auriclass reads1) = None →
  ∃ msgs,
    process_sample CLADE_DIR auriclass contigs_dict (isolate_id, (reads1, reads2)) st =
    (tt, State (fs st) (file_written_ids st) (report_after (auriclass reads1))
               (out st ++ msgs ++ [MsgSkipAuriclassError isolate_id])).
Proof.
  intros Hfail.
  unfold process_sample, run_auriclass, subprocess_run, print,
    mbind, M_bind, mret, M_ret; simpl.
  destruct (returncode (auriclass reads1) =? 0)%Z eqn:Hrc; simpl.
  - destruct Hfail as [Hne|Hnone]; [apply Z.eqb_eq in Hrc; contradiction|].
    rewrite Hnone.
    exists [MsgProcessing isolate_id; MsgRunning isolate_id ["auriclass"; reads1];
            MsgReportNotFound REPORT_PATH isolate_id].
    simpl. by rewrite <- !app_assoc.
  - exists [MsgProcessing isolate_id; MsgRunning isolate_id ["auriclass"; reads1];
            MsgAuriclassError isolate_id (stderr (auriclass reads1))].
    by rewrite <- !app_assoc.
Qed.

Lemma process_sample_classified contigs_dict isolate_id reads1 reads2 st
    header f0 f1 more rest :
  returncode (auriclass reads1) = 0%Z →
  report_after (auriclass reads1) = Some (header :: (f0 :: f1 :: more) :: rest) →
  process_sample CLADE_DIR auriclass contigs_dict (isolate_id, (reads1, reads2)) st =
  (if bool_decide (strip f1 ∈ allowed_clades)
   then commit_sample CLADE_DIR contigs_dict isolate_id reads1 reads2 (strip f1)
   else print (MsgWarnNotAllowed (strip f1) isolate_id))
    (classified_state auriclass st isolate_id reads1 (strip f1)).
Proof.
  intros Hrc Hrep.
  unfold process_sample, run_auriclass, subprocess_run, parse_report,
    classified_state, print, mbind, M_bind, mret, M_ret; simpl.
  rewrite Hrc, Hrep; simpl. rewrite <- !app_assoc; simpl.
  by case_bool_decide.
Qed.

Lemma commit_sample_no_contigs contigs_dict isolate_id reads1 reads2 clade st :
  contigs_dict !! isolate_id = None ∨ contigs_dict !! isolate_id = Some "" →
  let st3 := no_contigs_state CLADE_DIR st isolate_id reads1 reads2 clade in
  exec (commit_sample CLADE_DIR contigs_dict isolate_id reads1 reads2 clade) st =
  State (fs st3) (file_written_ids st3) (report_tsv st3)
        (out st3 ++ [MsgAssigned isolate_id clade;
                     MsgUpdatedFile (clade_reads_file CLADE_DIR clade);
                     MsgUpdatedFile (clade_contigs_file CLADE_DIR clade);
                     MsgUpdatedFile (SUMMARY_FILE CLADE_DIR)]).
Proof.
  intros Hno. unfold commit_sample, no_contigs_state.
  assert (match contigs_dict !! isolate_id with
          | Some p => if String.eqb p "" then None
                      else Some (isolate_id ++ TAB ++ p ++ LF)
          | None => None
          end = None) as -> by (destruct Hno as [-> | ->]; done).
  rewrite !exec_bind, !exec_print; simpl.
  by rewrite <- !app_assoc.
Qed.

Lemma no_contigs_state_facts st isolate_id reads1 reads2 clade :
  clade ∈ allowed_clades →
  let st3 := no_contigs_state CLADE_DIR st isolate_id reads1 reads2 clade in
  fs st3 !! clade_reads_file CLADE_DIR clade =
    (if bool_decide (isolate_id ∈ known_ids st (clade_reads_file CLADE_DIR clade) None)
     then fs st !! clade_reads_file CLADE_DIR clade
     else Some (default "" (fs st !! clade_reads_file CLADE_DIR clade)
                ++ reads_line isolate_id reads1 reads2)) ∧
  isolate_id ∈ known_ids st3 (clade_reads_file CLADE_DIR clade) None ∧
  fs st3 !! (SUMMARY_FILE CLADE_DIR) =
    (if bool_decide (isolate_id ∈ known_ids st (SUMMARY_FILE CLADE_DIR) (Some HEADER_LINE))
     then fs st !! (SUMMARY_FILE CLADE_DIR)
     else Some (default "" (fs st !! (SUMMARY_FILE CLADE_DIR))
                ++ summary_line isolate_id clade)) ∧
  isolate_id ∈ known_ids st3 (SUMMARY_FILE CLADE_DIR) (Some HEADER_LINE) ∧
  fs st3 !! clade_contigs_file CLADE_DIR clade = fs st !! clade_contigs_file CLADE_DIR clade ∧
  file_written_ids st3 !! clade_contigs_file CLADE_DIR clade =
    file_written_ids st !! clade_contigs_file CLADE_DIR clade ∧
  MsgWarnNoContigs isolate_id ∈ out st3.
Proof.
  intros Hin st3.
  destruct (ledger_files_distinct CLADE_DIR clade Hin) as (Hrc & Hrs & Hcs).
  subst st3. unfold no_contigs_state.
  set (st1 := exec (append_line_if_not_exists (clade_reads_file CLADE_DIR clade) _ _ _) st).
  set (st2 := exec (print _) st1).
  set (st3 := exec (append_line_if_not_exists (SUMMARY_FILE CLADE_DIR) _ _ _) st2).
  assert (Hk2 : ∀ f h, known_ids st2 f h = known_ids st1 f h) by done.
  repeat split.
  - subst st3. rewrite append_fs_other by done.
    change (fs st2) with (fs st1). subst st1. apply append_fs_same.
  - unfold known_ids. subst st3. rewrite append_ids_other by done.
    change (file_written_ids st2) with (file_written_ids st1). subst st1.
    destruct (append_ids_same (clade_reads_file CLADE_DIR clade)
                (reads_line isolate_id reads1 reads2) isolate_id None st)
      as (ids & Hids & Hid & _).
    by rewrite Hids.
  - subst st3. rewrite append_fs_same, Hk2.
    change (fs st2) with (fs st1). subst st1.
    by rewrite append_known_other, append_fs_other.
  - unfold known_ids.
    destruct (append_ids_same (SUMMARY_FILE CLADE_DIR) (summary_line isolate_id clade)
                isolate_id (Some HEADER_LINE) st2) as (ids & Hids & Hid & _).
    subst st3. by rewrite Hids.
  - subst st3. rewrite append_fs_other by done.
    change (fs st2) with (fs st1). subst st1. by rewrite append_fs_other.
  - subst st3. rewrite append_ids_other by done.
    change (file_written_ids st2) with (file_written_ids st1).
    subst st1. by rewrite append_ids_other.
  - subst st3. rewrite append_out. apply elem_of_app. left.
    subst st2. rewrite exec_print. simpl. apply elem_of_app. right.
    apply list_elem_of_singleton. done.
Qed.

(** C3.  An isolate whose classifier call fails (the process exits
    with a non-zero status, or [report.tsv] does not exist once it has
    returned) gets no row in any ledger: the iteration leaves every file
    and every set of known identifiers as they were, prints the skip
    notice last, and the loop goes on with the next isolate. *)
Theorem classifier_failure_writes_nothing contigs_dict isolate_id reads1 reads2 st :
  returncode (auriclass reads1) ≠ 0%Z ∨ report_after (auriclass reads1) = None →
  let st' := exec (process_sample CLADE_DIR auriclass contigs_dict
                     (isolate_id, (reads1, reads2))) st in
  fs st' = fs st ∧
  file_written_ids st' = file_written_ids st ∧
  last (out st') = Some (MsgSkipAuriclassError isolate_id) ∧
  ∀ rest,
    exec (main_loop CLADE_DIR auriclass
            ((isolate_id, (reads1, reads2)) :: rest) contigs_dict) st =
    exec (main_loop CLADE_DIR auriclass rest contigs_dict) st'.
Proof.
  intros Hfail st'.
  destruct (process_sample_failure contigs_dict isolate_id reads1 reads2 st Hfail)
    as [msgs Heq].
  subst st'. unfold exec at 1 2 3. rewrite Heq. simpl.
  repeat split.
  - by rewrite !app_assoc, last_snoc.
  - intros rest. unfold main_loop. by rewrite exec_for_each_cons.
Qed.

(** C4.  An isolate whose report carries a label outside the six
    allowed clades gets no row in any ledger: the iteration leaves every
    file and every set of known identifiers as they were, prints the
    warning last, and the loop goes on with the next isolate. *)
Theorem disallowed_clade_writes_nothing contigs_dict isolate_id reads1 reads2 st
    header f0 f1 more rest_rows :
  returncode (auriclass reads1) = 0%Z →
  report_after (auriclass reads1) = Some (header :: (f0 :: f1 :: more) :: rest_rows) →
  strip f1 ∉ allowed_clades →
  let st' := exec (process_sample CLADE_DIR auriclass contigs_dict
                     (isolate_id, (reads1, reads2))) st in
  fs st' = fs st ∧
  file_written_ids st' = file_written_ids st ∧
  last (out st') = Some (MsgWarnNotAllowed (strip f1) isolate_id) ∧
  ∀ rest,
    exec (main_loop CLADE_DIR auriclass
            ((isolate_id, (reads1, reads2)) :: rest) contigs_dict) st =
    exec (main_loop CLADE_DIR auriclass rest contigs_dict) st'.
Proof.
  intros Hrc Hrep Hnot st'. subst st'. unfold exec at 1 2 3.
  rewrite (process_sample_classified _ _ _ _ _ _ _ _ _ _ Hrc Hrep).
  rewrite bool_decide_false by done. simpl.
  repeat split.
  - by rewrite last_snoc.
  - intros rest. unfold main_loop. by rewrite exec_for_each_cons.
Qed.

(** C6.  An isolate of the reads table that classifies to an allowed
    clade and has no entry in the contigs table: its reads row and its
    summary row are committed through the ledger store (appended unless
    the identifier is already known for that file, and known afterwards),
    the clade's contigs ledger is left untouched, the warning is printed,
    and the loop goes on with the next isolate. *)
Theorem missing_contigs_entry_partial_commit contigs_dict isolate_id reads1 reads2 st
    header f0 f1 more rest_rows :
  returncode (auriclass reads1) = 0%Z →
  report_after (auriclass reads1) = Some (header :: (f0 :: f1 :: more) :: rest_rows) →
  strip f1 ∈ allowed_clades →
  contigs_dict !! isolate_id = None →
  let clade := strip f1 in
  let st' := exec (process_sample CLADE_DIR auriclass contigs_dict
                     (isolate_id, (reads1, reads2))) st in
  fs st' !! clade_reads_file CLADE_DIR clade =
    (if bool_decide (isolate_id ∈ known_ids st (clade_reads_file CLADE_DIR clade) None)
     then fs st !! clade_reads_file CLADE_DIR clade
     else Some (default "" (fs st !! clade_reads_file CLADE_DIR clade)
                ++ isolate_id ++ TAB ++ reads1 ++ TAB ++ reads2 ++ LF)) ∧
  isolate_id ∈ known_ids st' (clade_reads_file CLADE_DIR clade) None ∧
  fs st' !! SUMMARY_FILE CLADE_DIR =
    (if bool_decide (isolate_id ∈ known_ids st (SUMMARY_FILE CLADE_DIR) (Some HEADER_LINE))
     then fs st !! SUMMARY_FILE CLADE_DIR
     else Some (default "" (fs st !! SUMMARY_FILE CLADE_DIR)
                ++ isolate_id ++ TAB ++ clade ++ LF)) ∧
  isolate_id ∈ known_ids st' (SUMMARY_FILE CLADE_DIR) (Some HEADER_LINE) ∧
  fs st' !! clade_contigs_file CLADE_DIR clade =
    fs st !! clade_contigs_file CLADE_DIR clade ∧
  MsgWarnNoContigs isolate_id ∈ out st' ∧
  ∀ rest,
    exec (main_loop CLADE_DIR auriclass
            ((isolate_id, (reads1, reads2)) :: rest) contigs_dict) st =
    exec (main_loop CLADE_DIR auriclass rest contigs_dict) st'.
Proof.
  intros Hrc Hrep Hin Hno clade st'.
  assert (Hst' : st' =
    exec (commit_sample CLADE_DIR contigs_dict isolate_id reads1 reads2 clade)
         (classified_state auriclass st isolate_id reads1 clade)).
  { subst st'. unfold exec.
    rewrite (process_sample_classified _ _ _ _ _ _ _ _ _ _ Hrc Hrep).
    by rewrite bool_decide_true. }
  rewrite commit_sample_no_contigs in Hst' by auto.
  destruct (no_contigs_state_facts (classified_state auriclass st isolate_id reads1 clade)
              isolate_id reads1 reads2 clade Hin)
    as (Hr & Hrk & Hs & Hsk & Hc & _ & Hw).
  assert (Hloop : ∀ rest,
    exec (main_loop CLADE_DIR auriclass
            ((isolate_id, (reads1, reads2)) :: rest) contigs_dict) st =
    exec (main_loop CLADE_DIR auriclass rest contigs_dict) st').
  { intros rest. unfold main_loop. by rewrite exec_for_each_cons. }
  clearbody st'. subst st'. unfold known_ids in *. simpl in *.
  repeat split; try done.
  apply elem_of_app. by left.
Qed.

(** C10.  An isolate whose contigs-table entry is the empty string is
    handled as one without entry: the guard tests the looked-up path for
    truth, so the warning is printed and the clade's contigs ledger, with
    its set of known identifiers, is left untouched. *)
Theorem empty_contigs_path_is_absent contigs_dict isolate_id reads1 reads2 st
    header f0 f1 more rest_rows :
  returncode (auriclass reads1) = 0%Z →
  report_after (auriclass reads1) = Some (header :: (f0 :: f1 :: more) :: rest_rows) →
  strip f1 ∈ allowed_clades →
  contigs_dict !! isolate_id = Some "" →
  let clade := strip f1 in
  let st' := exec (process_sample CLADE_DIR auriclass contigs_dict
                     (isolate_id, (reads1, reads2))) st in
  MsgWarnNoContigs isolate_id ∈ out st' ∧
  fs st' !! clade_contigs_file CLADE_DIR clade =
    fs st !! clade_contigs_file CLADE_DIR clade ∧
  file_written_ids st' !! clade_contigs_file CLADE_DIR clade =
    file_written_ids st !! clade_contigs_file CLADE_DIR clade.
Proof.
  intros Hrc Hrep Hin Hempty clade st'.
  assert (Hst' : st' =
    exec (commit_sample CLADE_DIR contigs_dict isolate_id reads1 reads2 clade)
         (classified_state auriclass st isolate_id reads1 clade)).
  { subst st'. unfold exec.
    rewrite (process_sample_classified _ _ _ _ _ _ _ _ _ _ Hrc Hrep).
    by rewrite bool_decide_true. }
  rewrite commit_sample_no_contigs in Hst' by auto.
  destruct (no_contigs_state_facts (classified_state auriclass st isolate_id reads1 clade)
              isolate_id reads1 reads2 clade Hin)
    as (_ & _ & _ & _ & Hc & Hci & Hw).
  rewrite Hst'. simpl in *.
  repeat split; try done.
  apply elem_of_app. by left.
Qed.

End Iteration.

(** ** [strip] removes the white space at both ends, and nothing else *)

Lemma lstrip_spec s :
  ∃ pre, s = pre ++ lstrip s ∧ all_space pre = true ∧
         first_is_space (lstrip s) = false.
Proof.
  induction s as [|c s (pre & Heq & Hpre & Hfirst)]; [by exists ""|].
  simpl. destruct (is_space c) eqn:Hc.
  - exists (String c pre). rewrite append_cons, <- Heq. simpl. by rewrite Hc, Hpre.
  - exists "". by rewrite append_nil_l.
Qed.

Lemma rstrip_spec s :
  ∃ post, s = rstrip s ++ post ∧ all_space post = true ∧
          last_is_space (rstrip s) = false.
Proof.
  induction s as [|c s (post & Heq & Hpost & Hlast)]; [by exists ""|].
  simpl. destruct (rstrip s) as [|d r] eqn:Hr.
  - rewrite append_nil_l in Heq. subst post.
    destruct (is_space c) eqn:Hc.
    + exists (String c s). simpl. by rewrite Hc, Hpost.
    + exists s. by rewrite Hpost.
  - exists post. by rewrite append_cons, <- Heq.
Qed.

Lemma rstrip_first s : first_is_space s = false → first_is_space (rstrip s) = false.
Proof.
  destruct s as [|c s]; [done|]. simpl. intros Hc.
  destruct (rstrip s); by rewrite ?Hc.
Qed.

Lemma strip_spec s :
  ∃ pre post,
    s = pre ++ strip s ++ post ∧
    all_space pre = true ∧ all_space post = true ∧
    first_is_space (strip s) = false ∧ last_is_space (strip s) = false.
Proof.
  destruct (lstrip_spec s) as (pre & Hl & Hpre & Hfirst).
  destruct (rstrip_spec (lstrip s)) as (post & Hr & Hpost & Hlast).
  exists pre, post. unfold strip.
  rewrite <- Hr. repeat split; auto using rstrip_first.
Qed.

(** ** The report parser *)

(** C9.  [parse_report] takes the first row of the report as the header
    and the second as the data row: it returns the second column of the
    data row with the white space at both ends removed when that row has
    at least two columns, and [None] when the report has no row, no data
    row, or a data row with fewer than two columns.  It writes no file. *)
Theorem parse_report_result st report_path rows :
  report_tsv st = Some rows →
  eval (parse_report report_path) st =
    match rows with
    | header :: row :: _ =>
        if decide (2 ≤ List.length row)%nat
        then Some (strip (nth 1 row "")) else None
    | _ => None
    end ∧
  (∀ label, eval (parse_report report_path) st = Some label →
     ∃ header row rest pre post,
       rows = header :: row :: rest ∧
       nth_error row 1 = Some (pre ++ label ++ post) ∧
       all_space pre = true ∧ all_space post = true ∧
       first_is_space label = false ∧ last_is_space label = false) ∧
  fs (exec (parse_report report_path) st) = fs st ∧
  file_written_ids (exec (parse_report report_path) st) = file_written_ids st.
Proof.
  intros Hrep. unfold eval, exec, parse_report. rewrite Hrep. simpl.
  destruct rows as [|header [|[|f0 [|f1 more]] rest]]; simpl;
    repeat split; try done.
  - intros label [= <-].
    destruct (strip_spec f1) as (pre & post & Heq & Hpre & Hpost & Hf & Hl).
    exists header, (f0 :: f1 :: more), rest, pre, post. simpl.
    by rewrite <- Heq.
Qed.

(** ** The input loader *)

Lemma fold_rows_cons {D} (step : D → list string → M D) d row rows st :
  fold_rows step d (row :: rows) st =
  fold_rows step (eval (step d row) st) rows (exec (step d row) st).
Proof. simpl. unfold mbind, M_bind, eval, exec. by destruct (step d row st). Qed.

Lemma fold_rows_skip {D} (step : D → list string → M D) row :
  (∀ d st, step d row st = (d, st)) →
  ∀ pre post d st,
    fold_rows step d (pre ++ row :: post) st = fold_rows step d (pre ++ post) st.
Proof.
  intros Hskip pre post. induction pre as [|r pre IH]; intros d st.
  - simpl. unfold mbind, M_bind. by rewrite Hskip.
  - rewrite <- !app_comm_cons, !fold_rows_cons. apply IH.
Qed.

Lemma load_reads_row_skipped READS_TAB reads_dict row st :
  skipped_row row = true →
  load_reads_row READS_TAB reads_dict row st = (reads_dict, st).
Proof. intros Hskip. unfold load_reads_row. by rewrite Hskip. Qed.

Lemma load_contigs_row_skipped CONTIGS_TAB contigs_dict row st :
  skipped_row row = true →
  load_contigs_row CONTIGS_TAB contigs_dict row st = (contigs_dict, st).
Proof. intros Hskip. unfold load_contigs_row. by rewrite Hskip. Qed.

(** C7, as the code has it.  A row without any field (a blank line) and
    a row whose first field starts with [#] contribute nothing: the
    loader's dictionary and state after such a row are those before it,
    so a table with the row and the table without it load alike. *)
Theorem empty_and_comment_rows_skipped READS_TAB CONTIGS_TAB row :
  row = [] ∨ (∃ field0 fields, row = field0 :: fields ∧ startswith "#" field0 = true) →
  (∀ reads_dict st,
     load_reads_row READS_TAB reads_dict row st = (reads_dict, st)) ∧
  (∀ contigs_dict st,
     load_contigs_row CONTIGS_TAB contigs_dict row st = (contigs_dict, st)) ∧
  (∀ pre post st,
     load_reads READS_TAB (pre ++ row :: post) st =
     load_reads READS_TAB (pre ++ post) st) ∧
  (∀ pre post st,
     load_contigs CONTIGS_TAB (pre ++ row :: post) st =
     load_contigs CONTIGS_TAB (pre ++ post) st).
Proof.
  intros Hrow.
  assert (Hskip : skipped_row row = true).
  { destruct Hrow as [->|(field0 & fields & -> & Hstart)]; done. }
  repeat split; intros.
  - by apply load_reads_row_skipped.
  - by apply load_contigs_row_skipped.
  - apply fold_rows_skip. intros. by apply load_reads_row_skipped.
  - apply fold_rows_skip. intros. by apply load_contigs_row_skipped.
Qed.

(** C8, as the code has it.  A row whose number of fields is not the
    expected one (three for the reads table, two for the contigs table)
    adds nothing to the dictionary, and the loader goes on with the next
    row; the row is reported unless it is one of the rows skipped before
    the fields are counted (no field at all, or a first field that starts
    with [#]), which pass in silence. *)
Theorem malformed_row_skipped READS_TAB CONTIGS_TAB row st :
  (List.length row ≠ 3 →
   ∀ reads_dict,
     eval (load_reads_row READS_TAB reads_dict row) st = reads_dict ∧
     exec (load_reads_row READS_TAB reads_dict row) st =
       report_malformed READS_TAB row st ∧
     ∀ rest,
       fold_rows (load_reads_row READS_TAB) reads_dict (row :: rest) st =
       fold_rows (load_reads_row READS_TAB) reads_dict rest
         (report_malformed READS_TAB row st)) ∧
  (List.length row ≠ 2 →
   ∀ contigs_dict,
     eval (load_contigs_row CONTIGS_TAB contigs_dict row) st = contigs_dict ∧
     exec (load_contigs_row CONTIGS_TAB contigs_dict row) st =
       report_malformed CONTIGS_TAB row st ∧
     ∀ rest,
       fold_rows (load_contigs_row CONTIGS_TAB) contigs_dict (row :: rest) st =
       fold_rows (load_contigs_row CONTIGS_TAB) contigs_dict rest
         (report_malformed CONTIGS_TAB row st)).
Proof.
  split; intros Hlen d.
  - assert (Hrow : load_reads_row READS_TAB d row st =
                   (d, report_malformed READS_TAB row st)).
    { unfold load_reads_row, report_malformed.
      destruct (skipped_row row); [done|].
      by destruct row as [|f0 [|f1 [|f2 [|f3 more]]]]. }
    repeat split.
    + unfold eval. by rewrite Hrow.
    + unfold exec. by rewrite Hrow.
    + intros rest. rewrite fold_rows_cons. unfold eval, exec. by rewrite Hrow.
  - assert (Hrow : load_contigs_row CONTIGS_TAB d row st =
                   (d, report_malformed CONTIGS_TAB row st)).
    { unfold load_contigs_row, report_malformed.
      destruct (skipped_row row); [done|].
      by destruct row as [|f0 [|f1 [|f2 more]]]. }
    repeat split.
    + unfold eval. by rewrite Hrow.
    + unfold exec. by rewrite Hrow.
    + intros rest. rewrite fold_rows_cons. unfold eval, exec. by rewrite Hrow.
Qed.

(** ** The membership index of a file *)

Lemma readlines_line s rest :
  no_newline s = true →
  readlines (s ++ LF ++ rest) = (s ++ LF) :: readlines rest.
Proof.
  induction s as [|c s IH]; intros Hs; [done|].
  simpl in Hs. apply andb_prop in Hs as [Hc Hs]. apply andb_prop in Hc as [Hlf Hcr].
  rewrite !append_cons. simpl.
  destruct (is_lf c); [done|]. destruct (is_cr c); [done|].
  by rewrite IH.
Qed.

Lemma elem_of_fold_load_line header_line ls acc x :
  x ∈ fold_left (load_line header_line) ls acc ↔
  x ∈ acc ∨ ∃ l, l ∈ ls ∧ contributes header_line l x.
Proof.
  revert acc. induction ls as [|l ls IH]; intros acc; simpl.
  - split; [auto|]. intros [?|(l & Hl & _)]; [done|]. by apply elem_of_nil in Hl.
  - rewrite IH. unfold load_line, contributes.
    destruct (String.eqb (strip l) "") eqn:Hblank;
      [|destruct (is_header header_line l) eqn:Hhead].
    + split.
      * intros [?|(l' & Hl' & ?)]; [by left|]. right. exists l'. split; [|done].
        by apply elem_of_cons; right.
      * intros [?|(l' & Hl' & Hc)]; [by left|]. right. exists l'. split; [|done].
        apply elem_of_cons in Hl' as [->|?]; [|done].
        destruct Hc as (Hc & _). congruence.
    + split.
      * intros [?|(l' & Hl' & ?)]; [by left|]. right. exists l'. split; [|done].
        by apply elem_of_cons; right.
      * intros [?|(l' & Hl' & Hc)]; [by left|]. right. exists l'. split; [|done].
        apply elem_of_cons in Hl' as [->|?]; [|done].
        destruct Hc as (_ & Hc & _). congruence.
    + split.
      * intros [Hx|(l' & Hl' & ?)].
        -- apply elem_of_union in Hx as [Hx|?]; [|by left].
           apply elem_of_singleton in Hx. right. exists l.
           split; [by apply elem_of_cons; left|done].
        -- right. exists l'. split; [|done]. by apply elem_of_cons; right.
      * intros [?|(l' & Hl' & Hc)]; [left; apply elem_of_union; by right|].
        apply elem_of_cons in Hl' as [->|?].
        -- left. destruct Hc as (_ & _ & ->).
           apply elem_of_union. left. by apply elem_of_singleton.
        -- right. by exists l'.
Qed.

Lemma elem_of_load_existing_ids header_line content x :
  x ∈ load_existing_ids header_line content ↔
  ∃ l, l ∈ readlines content ∧ contributes header_line l x.
Proof.
  unfold load_existing_ids. rewrite elem_of_fold_load_line.
  split; [|by right]. intros [Hx|?]; [|done]. by apply elem_of_empty in Hx.
Qed.

Lemma load_existing_ids_header rest :
  load_existing_ids (Some HEADER_LINE) (HEADER_LINE ++ LF ++ rest) =
  load_existing_ids (Some HEADER_LINE) rest.
Proof. unfold load_existing_ids. by rewrite readlines_line. Qed.

(** C5, as the code has it.  On the first reference to a file in a run
    the ledger store builds the file's set of known identifiers from the
    lines of the file: a line that is blank once stripped, and a line equal
    to [header_line] once both are stripped, are skipped; every other line
    gives its first tab-delimited field, stripped.  An identifier of that
    set is reported as already present and nothing is written.  A summary
    file that exists is not rewritten, and its header line gives no
    identifier. *)
Theorem membership_index_on_first_reference CLADE_DIR st filename line
    isolate_id header_line :
  file_written_ids st !! filename = None →
  let known :=
    match fs st !! filename with
    | Some content => load_existing_ids header_line content
    | None => ∅
    end in
  let call := append_line_if_not_exists filename line isolate_id header_line in
  file_written_ids (exec call st) !! filename =
    Some (if bool_decide (isolate_id ∈ known) then known
          else {[ isolate_id ]} ∪ known) ∧
  (∀ content x,
     fs st !! filename = Some content →
     x ∈ known ↔
     ∃ l, l ∈ readlines content ∧ String.eqb (strip l) "" = false ∧
          is_header header_line l = false ∧ x = strip (first_field l)) ∧
  (isolate_id ∈ known →
     eval call st = false ∧ fs (exec call st) = fs st ∧
     last (out (exec call st)) = Some (MsgAlreadyExists isolate_id filename)) ∧
  (is_Some (fs st !! SUMMARY_FILE CLADE_DIR) →
     create_summary_file CLADE_DIR st = (tt, st)) ∧
  (∀ rest,
     load_existing_ids (Some HEADER_LINE) (HEADER_LINE ++ LF ++ rest) =
     load_existing_ids (Some HEADER_LINE) rest).
Proof.
  intros Hfirst known call.
  assert (Hknown : known_ids st filename header_line = known).
  { unfold known_ids. by rewrite Hfirst. }
  subst call. rewrite append_exec, append_eval, Hknown.
  unfold skip_state, commit_state. rewrite Hknown.
  split; [|split; [|split; [|split]]].
  - case_bool_decide; simpl; by rewrite lookup_insert_eq.
  - intros content x Hfs. subst known. rewrite Hfs.
    apply elem_of_load_existing_ids.
  - intros Hin. rewrite bool_decide_true by done. simpl.
    by rewrite last_snoc.
  - intros Hex. unfold create_summary_file, mbind, M_bind, path_exists.
    by rewrite bool_decide_true.
  - apply load_existing_ids_header.
Qed.

(** ** Identifiers with white space at their ends *)

(** C1 at an identifier with a trailing blank.  The reads ledger
    holds one row for ["S1 "]; the call for the same identifier and row
    does not find it known (the set loaded from the file holds ["S1"]),
    appends the row and returns [True]: the identifier is then the first
    field of two rows. *)
Theorem padded_identifier_row_appended_again :
  let filename := "clades/Clade_II.reads.tab" in
  let st := start {[ filename := padded_reads_row ]} None in
  first_fields padded_reads_row = ["S1 "] ∧
  append_line_if_not_exists filename padded_reads_row "S1 " None st =
    (true, State {[ filename := padded_reads_row ++ padded_reads_row ]}
                 {[ filename := {[ "S1"; "S1 " ]} ]} None []) ∧
  first_fields (padded_reads_row ++ padded_reads_row) = ["S1 "; "S1 "].
Proof. vm_compute. done. Qed.

(** C2 at an identifier with a trailing blank.  A first run on an empty
    ledger directory writes one reads row and one summary row; a second
    run on the same inputs and on the files of the first appends both
    rows again. *)
Theorem second_run_appends_padded_identifier_again :
  let first := padded_run ∅ None in
  let second := padded_run (fs first) (report_tsv first) in
  fs first !! "clades/Clade_II.reads.tab" = Some padded_reads_row ∧
  fs first !! "clades/Clade_designations.tab" =
    Some (HEADER_LINE ++ LF ++ padded_summary_row) ∧
  fs second !! "clades/Clade_II.reads.tab" =
    Some (padded_reads_row ++ padded_reads_row) ∧
  fs second !! "clades/Clade_designations.tab" =
    Some (HEADER_LINE ++ LF ++ padded_summary_row ++ padded_summary_row) ∧
  fs second ≠ fs first.
Proof.
  intros first second.
  assert (H1 : fs first !! "clades/Clade_II.reads.tab" = Some padded_reads_row)
    by (vm_compute; reflexivity).
  assert (H2 : fs second !! "clades/Clade_II.reads.tab" =
               Some (padded_reads_row ++ padded_reads_row))
    by (vm_compute; reflexivity).
  split; [exact H1|]. split; [vm_compute; reflexivity|].
  split; [exact H2|]. split; [vm_compute; reflexivity|].
  intros Heq. rewrite Heq, H1 in H2. vm_compute in H2. discriminate H2.
Qed.

(** C5 as stated fails on the summary file a run leaves for the
    identifier ["S1 "]: the index in the words of the specification holds
    ["S1 "], the set the code loads holds ["S1"], and the call for ["S1 "],
    which is the first field of a row of the file, is not reported as
    already present but appends the row again. *)
Lemma padded_identifier_not_recognised :
  let filename := "clades/Clade_designations.tab" in
  let st := start {[ filename := padded_summary ]} None in
  first_fields padded_summary = ["Isolate_ID"; "S1 "] ∧
  spec_membership_index (Some HEADER_LINE) padded_summary = {[ "S1 " ]} ∧
  load_existing_ids (Some HEADER_LINE) padded_summary = {[ "S1" ]} ∧
  append_line_if_not_exists filename padded_summary_row "S1 "
      (Some HEADER_LINE) st =
    (true, State {[ filename := padded_summary ++ padded_summary_row ]}
                 {[ filename := {[ "S1"; "S1 " ]} ]} None []).
Proof. vm_compute. done. Qed.

(** C7 as stated fails on a row whose first field is empty: the row
    has its three (or two) fields, so it is loaded under the identifier
    [""]. *)
Lemma blank_first_field_row_is_loaded :
  eval (load_reads "reads.tab" [[""; "r1.fq.gz"; "r2.fq.gz"]]) (start ∅ None) =
    [("", ("r1.fq.gz", "r2.fq.gz"))] ∧
  eval (load_contigs "contigs.tab" [[""; "c.fa"]]) (start ∅ None) !! "" =
    Some "c.fa".
Proof. split; vm_compute; reflexivity. Qed.

(** C8 as stated fails on a blank line and on a comment line: neither
    has the expected number of fields, and neither is reported. *)
Lemma blank_and_comment_rows_not_reported :
  List.length (@nil string) ≠ 3 ∧ List.length ["# isolates"] ≠ 3 ∧
  out (exec (load_reads "reads.tab" [[]; ["# isolates"]]) (start ∅ None)) = [] ∧
  out (exec (load_contigs "contigs.tab" [[]; ["# isolates"]]) (start ∅ None)) = [].
Proof. vm_compute. done. Qed.

(** ** The theorems at concrete inputs *)

Lemma classifier_failure_writes_nothing_witness :
  (returncode (auriclass_fails "r1.fq.gz") ≠ 0%Z ∨
   report_after (auriclass_fails "r1.fq.gz") = None) ∧
  fs (exec (process_sample "clades" auriclass_fails ∅
              ("S1", ("r1.fq.gz", "r2.fq.gz"))) (start ∅ None)) = ∅.
Proof.
  assert (Hfail : returncode (auriclass_fails "r1.fq.gz") ≠ 0%Z ∨
                  report_after (auriclass_fails "r1.fq.gz") = None)
    by (right; reflexivity).
  split; [exact Hfail|].
  exact (proj1 (classifier_failure_writes_nothing "clades" auriclass_fails ∅
                  "S1" "r1.fq.gz" "r2.fq.gz" (start ∅ None) Hfail)).
Defined.

Lemma disallowed_clade_writes_nothing_witness :
  returncode (auriclass_clade_VII "r1.fq.gz") = 0%Z ∧
  report_after (auriclass_clade_VII "r1.fq.gz") =
    Some [["Sample"; "Clade"]; ["sample"; "Clade VII"]] ∧
  (strip "Clade VII" ∉ allowed_clades) ∧
  fs (exec (process_sample "clades" auriclass_clade_VII ∅
              ("S1", ("r1.fq.gz", "r2.fq.gz"))) (start ∅ None)) = ∅.
Proof.
  assert (Hnot : strip "Clade VII" ∉ allowed_clades).
  { apply (bool_decide_unpack (strip "Clade VII" ∉ allowed_clades)).
    vm_compute. exact I. }
  split; [reflexivity|]. split; [reflexivity|]. split; [exact Hnot|].
  exact (proj1 (disallowed_clade_writes_nothing "clades" auriclass_clade_VII ∅
                  "S1" "r1.fq.gz" "r2.fq.gz" (start ∅ None)
                  ["Sample"; "Clade"] "sample" "Clade VII" [] []
                  eq_refl eq_refl Hnot)).
Defined.

Lemma missing_contigs_entry_partial_commit_witness :
  returncode (auriclass_clade_II "r1.fq.gz") = 0%Z ∧
  report_after (auriclass_clade_II "r1.fq.gz") =
    Some [["Sample"; "Clade"]; ["sample"; "Clade II"]] ∧
  strip "Clade II" ∈ allowed_clades ∧
  (∅ : gmap string string) !! "S1" = None ∧
  fs (exec (process_sample "clades" auriclass_clade_II ∅
              ("S1", ("r1.fq.gz", "r2.fq.gz"))) (start ∅ None))
    !! clade_contigs_file "clades" (strip "Clade II") = None.
Proof.
  assert (Hin : strip "Clade II" ∈ allowed_clades).
  { apply (bool_decide_unpack (strip "Clade II" ∈ allowed_clades)).
    vm_compute. exact I. }
  split; [reflexivity|]. split; [reflexivity|]. split; [exact Hin|].
  split; [reflexivity|].
  exact (proj1 (proj2 (proj2 (proj2 (proj2
    (missing_contigs_entry_partial_commit "clades" auriclass_clade_II ∅
       "S1" "r1.fq.gz" "r2.fq.gz" (start ∅ None)
       ["Sample"; "Clade"] "sample" "Clade II" [] []
       eq_refl eq_refl Hin eq_refl)))))).
Defined.

Lemma empty_contigs_path_is_absent_witness :
  returncode (auriclass_clade_II "r1.fq.gz") = 0%Z ∧
  report_after (auriclass_clade_II "r1.fq.gz") =
    Some [["Sample"; "Clade"]; ["sample"; "Clade II"]] ∧
  strip "Clade II" ∈ allowed_clades ∧
  ({[ "S1" := "" ]} : gmap string string) !! "S1" = Some "" ∧
  MsgWarnNoContigs "S1" ∈
    out (exec (process_sample "clades" auriclass_clade_II {[ "S1" := "" ]}
                 ("S1", ("r1.fq.gz", "r2.fq.gz"))) (start ∅ None)).
Proof.
  assert (Hin : strip "Clade II" ∈ allowed_clades).
  { apply (bool_decide_unpack (strip "Clade II" ∈ allowed_clades)).
    vm_compute. exact I. }
  split; [reflexivity|]. split; [reflexivity|]. split; [exact Hin|].
  split; [reflexivity|].
  exact (proj1
    (empty_contigs_path_is_absent "clades" auriclass_clade_II {[ "S1" := "" ]}
       "S1" "r1.fq.gz" "r2.fq.gz" (start ∅ None)
       ["Sample"; "Clade"] "sample" "Clade II" [] []
       eq_refl eq_refl Hin eq_refl)).
Defined.

Lemma parse_report_result_witness :
  let st := State ∅ ∅ (Some [["Sample"; "Clade"]; ["sample"; " Clade II "]]) [] in
  report_tsv st = Some [["Sample"; "Clade"]; ["sample"; " Clade II "]] ∧
  eval (parse_report REPORT_PATH) st = Some "Clade II".
Proof.
  split; [reflexivity|].
  exact (proj1 (parse_report_result
                  (State ∅ ∅ (Some [["Sample"; "Clade"]; ["sample"; " Clade II "]]) [])
                  REPORT_PATH [["Sample"; "Clade"]; ["sample"; " Clade II "]]
                  eq_refl)).
Defined.

Lemma empty_and_comment_rows_skipped_witness :
  (["# isolates"] = [] ∨
   ∃ field0 fields, ["# isolates"] = field0 :: fields ∧
                    startswith "#" field0 = true) ∧
  load_reads "reads.tab" ([["S1"; "a"; "b"]] ++ ["# isolates"] :: [["S2"; "c"; "d"]])
             (start ∅ None) =
  load_reads "reads.tab" ([["S1"; "a"; "b"]] ++ [["S2"; "c"; "d"]]) (start ∅ None).
Proof.
  assert (Hrow : ["# isolates"] = [] ∨
                 ∃ field0 fields, ["# isolates"] = field0 :: fields ∧
                                  startswith "#" field0 = true).
  { right. exists "# isolates", []. split; reflexivity. }
  split; [exact Hrow|].
  exact (proj1 (proj2 (proj2
    (empty_and_comment_rows_skipped "reads.tab" "contigs.tab" ["# isolates"] Hrow)))
    [["S1"; "a"; "b"]] [["S2"; "c"; "d"]] (start ∅ None)).
Defined.

Lemma malformed_row_skipped_witness :
  List.length ["S1"; "r1.fq.gz"] ≠ 3 ∧
  List.length ["S1"] ≠ 2 ∧
  out (exec (load_reads_row "reads.tab" [] ["S1"; "r1.fq.gz"]) (start ∅ None)) =
    [MsgMalformedRow "reads.tab" ["S1"; "r1.fq.gz"]] ∧
  out (exec (load_contigs_row "contigs.tab" ∅ ["S1"]) (start ∅ None)) =
    [MsgMalformedRow "contigs.tab" ["S1"]].
Proof.
  assert (H3 : List.length ["S1"; "r1.fq.gz"] ≠ 3) by (simpl; lia).
  assert (H2 : List.length ["S1"] ≠ 2) by (simpl; lia).
  split; [exact H3|]. split; [exact H2|]. split.
  - exact (f_equal out (proj1 (proj2
      (proj1 (malformed_row_skipped "reads.tab" "contigs.tab"
                ["S1"; "r1.fq.gz"] (start ∅ None)) H3 [])))).
  - exact (f_equal out (proj1 (proj2
      (proj2 (malformed_row_skipped "reads.tab" "contigs.tab"
                ["S1"] (start ∅ None)) H2 ∅)))).
Defined.

Lemma membership_index_on_first_reference_witness :
  let filename := SUMMARY_FILE "clades" in
  let content := HEADER_LINE ++ LF ++ "S1" ++ TAB ++ "Clade II" ++ LF in
  let st := start {[ filename := content ]} None in
  file_written_ids st !! filename = None ∧
  file_written_ids
    (exec (append_line_if_not_exists filename ("S1" ++ TAB ++ "Clade II" ++ LF)
             "S1" (Some HEADER_LINE)) st) !! filename = Some {[ "S1" ]}.
Proof.
  split; [reflexivity|].
  exact (proj1 (membership_index_on_first_reference "clades"
    (start {[ SUMMARY_FILE "clades" :=
                HEADER_LINE ++ LF ++ "S1" ++ TAB ++ "Clade II" ++ LF ]} None)
    (SUMMARY_FILE "clades") ("S1" ++ TAB ++ "Clade II" ++ LF) "S1"
    (Some HEADER_LINE) eq_refl)).
Defined.

(** ** Identifiers the ledger files can hold *)

Lemma lstrip_id s : first_is_space s = false → lstrip s = s.
Proof. destruct s as [|c s]; [done|]. simpl. by intros ->. Qed.

Lemma rstrip_id s : last_is_space s = false → rstrip s = s.
Proof.
  induction s as [|c s IH]; [done|]. simpl.
  destruct s as [|d s]; [by intros ->|].
  intros Hlast. by rewrite IH.
Qed.

Lemma strip_id s :
  first_is_space s = false → last_is_space s = false → strip s = s.
Proof. intros Hf Hl. unfold strip. by rewrite lstrip_id, rstrip_id. Qed.

Lemma rstrip_cons_nonspace c s : is_space c = false → rstrip (String c s) ≠ "".
Proof. intros Hc. simpl. destruct (rstrip s); by rewrite ?Hc. Qed.

Lemma rstrip_app a b : rstrip b ≠ "" → rstrip (a ++ b) = a ++ rstrip b.
Proof.
  intros Hb. induction a as [|c a IH]; [done|].
  rewrite !append_cons. simpl. rewrite IH.
  destruct (a ++ rstrip b) eqn:Hab; [|done].
  destruct a; [|done]. by rewrite append_nil_l in Hab.
Qed.

Lemma first_field_app_tab s rest :
  no_tab s = true → first_field (s ++ TAB ++ rest) = s.
Proof.
  induction s as [|c s IH]; [done|]. rewrite append_cons. simpl.
  intros [Hc Hs]%andb_prop. apply negb_true_iff in Hc. rewrite Hc.
  by rewrite IH.
Qed.

Lemma no_newline_app a b :
  no_newline (a ++ b) = no_newline a && no_newline b.
Proof.
  induction a as [|c a IH]; [done|]. rewrite append_cons. simpl.
  rewrite IH. by rewrite andb_assoc.
Qed.

Lemma terminated_app_lf s : terminated (s ++ LF) = true.
Proof.
  induction s as [|c s IH]; [done|]. rewrite append_cons. simpl.
  destruct (s ++ LF) eqn:Hs; [by destruct s|done].
Qed.

Lemma terminated_cons c s : s ≠ "" → terminated (String c s) = terminated s.
Proof. by destruct s. Qed.

Lemma readlines_cons_nonempty c s : readlines (String c s) ≠ [].
Proof.
  simpl. destruct (is_lf c); [done|]. destruct (is_cr c).
  - destruct s as [|c' s]; [done|]. by destruct (is_lf c').
  - by destruct (readlines s).
Qed.

Lemma readlines_app_bounded (n : nat) a b :
  (String.length a ≤ n)%nat → terminated a = true →
  readlines (a ++ b) = (readlines a ++ readlines b)%list.
Proof.
  revert a. induction n as [|n IH]; intros a Hlen Hterm.
  { destruct a; [done|simpl in Hlen; lia]. }
  destruct a as [|c a]; [done|]. simpl in Hlen.
  assert (Ha : a ≠ "" → terminated a = true).
  { intros Hne. by rewrite <- (terminated_cons c a Hne). }
  rewrite append_cons. simpl.
  destruct (is_lf c) eqn:Hlf.
  { destruct a as [|c' a]; [done|].
    rewrite (IH (String c' a)); [done|simpl in *; lia|by apply Ha]. }
  destruct a as [|c' a]; [simpl in Hterm; congruence|].
  specialize (Ha ltac:(done)).
  destruct (is_cr c).
  - rewrite append_cons. cbv beta iota. destruct (is_lf c') eqn:Hlf'.
    + destruct a as [|c'' a]; [done|].
      rewrite (IH (String c'' a)); [done|simpl in *; lia|].
      by rewrite <- (terminated_cons c' (String c'' a)).
    + change (String c' (a ++ b)) with (String c' a ++ b).
      rewrite (IH (String c' a)); [done|simpl in *; lia|done].
  - change (String c' (a ++ b)) with (String c' a ++ b).
    rewrite (IH (String c' a)); [|simpl in *; lia|done].
    pose proof (readlines_cons_nonempty c' a).
    by destruct (readlines (String c' a)).
Qed.

Lemma readlines_app a b :
  terminated a = true → readlines (a ++ b) = (readlines a ++ readlines b)%list.
Proof. by apply (readlines_app_bounded (String.length a)). Qed.

(** ** Ledger files and their sets of known identifiers, kept in step *)

Section Ledgers.
Variable hdr : string → option string.

Lemma clean_id_inv s :
  clean_id s = true →
  (∃ c s', s = String c s' ∧ is_space c = false) ∧
  strip s = s ∧ no_tab s = true ∧ no_newline s = true.
Proof.
  unfold clean_id. rewrite !andb_true_iff, !negb_true_iff.
  intros ((((Hne & Hfirst) & Hlast) & Htab) & Hnl).
  repeat split; [|by apply strip_id|done..].
  destruct s as [|c s']; [done|]. by exists c, s'.
Qed.

Lemma load_line_row header_line acc isolate_id payload :
  clean_id isolate_id = true →
  is_header header_line (isolate_id ++ TAB ++ payload ++ LF) = false →
  load_line header_line acc (isolate_id ++ TAB ++ payload ++ LF) =
  {[ isolate_id ]} ∪ acc.
Proof.
  intros Hclean Hhead.
  destruct (clean_id_inv _ Hclean) as ((c & s' & -> & Hc) & Hstrip & Htab & _).
  unfold load_line. rewrite Hhead.
  rewrite first_field_app_tab, Hstrip by done.
  assert (strip (String c s' ++ TAB ++ payload ++ LF) ≠ "") as Hne.
  { unfold strip. rewrite append_cons. simpl. rewrite Hc.
    by apply rstrip_cons_nonspace. }
  by apply String.eqb_neq in Hne as ->.
Qed.

Lemma readlines_row isolate_id payload :
  clean_id isolate_id = true → no_newline payload = true →
  readlines (isolate_id ++ TAB ++ payload ++ LF) =
  [isolate_id ++ TAB ++ payload ++ LF].
Proof.
  intros Hclean Hpay.
  destruct (clean_id_inv _ Hclean) as (_ & _ & _ & Hnl).
  pose proof (readlines_line (isolate_id ++ TAB ++ payload) "") as Hl.
  rewrite append_nil_r, !append_assoc in Hl. apply Hl.
  rewrite !no_newline_app, Hnl, Hpay. done.
Qed.

Lemma load_existing_ids_append header_line content isolate_id payload :
  terminated content = true →
  clean_id isolate_id = true → no_newline payload = true →
  is_header header_line (isolate_id ++ TAB ++ payload ++ LF) = false →
  load_existing_ids header_line (content ++ isolate_id ++ TAB ++ payload ++ LF) =
  {[ isolate_id ]} ∪ load_existing_ids header_line content.
Proof.
  intros Hterm Hclean Hpay Hhead. unfold load_existing_ids.
  rewrite readlines_app, fold_left_app, readlines_row by done. simpl.
  by apply load_line_row.
Qed.

Lemma known_ids_consistent st filename :
  consistent hdr st → known_ids st filename (hdr filename) = ids_in_file hdr st filename.
Proof.
  intros Hcons. destruct (Hcons filename) as [_ Hids].
  unfold known_ids, ids_in_file, file_content in *.
  destruct (file_written_ids st !! filename) as [ids|]; [by apply Hids|].
  by destruct (fs st !! filename).
Qed.

Lemma exec_do_call filename line isolate_id st :
  exec (do_call hdr (filename, line, isolate_id)) st =
  exec (append_line_if_not_exists filename line isolate_id (hdr filename)) st.
Proof. unfold do_call. rewrite exec_bind. done. Qed.

Lemma file_content_skip st filename isolate_id h g :
  file_content (skip_state st filename isolate_id h) g = file_content st g.
Proof. done. Qed.

Lemma file_content_commit st filename line isolate_id h g :
  file_content (commit_state st filename line isolate_id h) g =
  if decide (filename = g) then file_content st g ++ line else file_content st g.
Proof.
  unfold file_content, commit_state. simpl.
  case_decide as Hg; [subst g; by rewrite lookup_insert_eq|].
  by rewrite lookup_insert_ne.
Qed.

(** A call of a well-formed row keeps files and sets in step, leaves
    the identifier in the file, and removes nothing. *)
Lemma do_call_consistent st c :
  consistent hdr st → well_formed_call hdr c →
  let st' := exec (do_call hdr c) st in
  consistent hdr st' ∧ covered hdr st' c ∧
  (∀ g, ids_in_file hdr st g ⊆ ids_in_file hdr st' g) ∧
  (∀ g, is_Some (fs st !! g) → is_Some (fs st' !! g)).
Proof.
  destruct c as [[filename line] isolate_id].
  intros Hcons (payload & -> & Hclean & Hpay & Hhead) st'. subst st'.
  rewrite exec_do_call, append_exec, known_ids_consistent by done.
  set (line := isolate_id ++ TAB ++ payload ++ LF).
  case_bool_decide as Hknown.
  - assert (Hids : ∀ g, ids_in_file hdr (skip_state st filename isolate_id (hdr filename)) g
                        = ids_in_file hdr st g) by done.
    split; [|split; [|split]].
    + intros g. destruct (Hcons g) as [Hterm Hloaded].
      split; [done|]. intros ids. rewrite Hids. simpl.
      destruct (decide (filename = g)) as [<-|Hne].
      * rewrite lookup_insert_eq, known_ids_consistent by done. congruence.
      * rewrite lookup_insert_ne by done. apply Hloaded.
    + simpl. by rewrite Hids.
    + intros g. by rewrite Hids.
    + done.
  - assert (Hids : ∀ g,
      ids_in_file hdr (commit_state st filename line isolate_id (hdr filename)) g =
      if decide (filename = g) then {[ isolate_id ]} ∪ ids_in_file hdr st g
      else ids_in_file hdr st g).
    { intros g. unfold ids_in_file. rewrite file_content_commit.
      case_decide as Hg; [subst g|done].
      apply load_existing_ids_append; try done. apply Hcons. }
    split; [|split; [|split]].
    + intros g. destruct (Hcons g) as [Hterm Hloaded]. split.
      * rewrite file_content_commit. case_decide; [|done].
        subst line. rewrite <- !append_assoc. apply terminated_app_lf.
      * intros ids. rewrite Hids. simpl.
        destruct (decide (filename = g)) as [<-|Hne].
        -- rewrite lookup_insert_eq, known_ids_consistent by done. congruence.
        -- rewrite lookup_insert_ne by done. apply Hloaded.
    + simpl. rewrite Hids, decide_True by done.
      apply elem_of_union. left. by apply elem_of_singleton.
    + intros g. rewrite Hids. case_decide; [|done].
      apply union_subseteq_r.
    + intros g Hg. simpl. destruct (decide (filename = g)) as [<-|Hne].
      * rewrite lookup_insert_eq. eauto.
      * by rewrite lookup_insert_ne.
Qed.

(** A call for an identifier that is in the file writes nothing. *)
Lemma do_call_covered st c :
  consistent hdr st → covered hdr st c →
  let st' := exec (do_call hdr c) st in
  fs st' = fs st ∧ consistent hdr st'.
Proof.
  destruct c as [[filename line] isolate_id].
  intros Hcons Hcov st'. subst st'. simpl in Hcov.
  rewrite exec_do_call, append_exec, known_ids_consistent by done.
  rewrite bool_decide_true by done.
  split; [done|].
  intros g. destruct (Hcons g) as [Hterm Hloaded].
  split; [done|]. intros ids.
  change (ids_in_file hdr (skip_state st filename isolate_id (hdr filename)) g)
    with (ids_in_file hdr st g). simpl.
  destruct (decide (filename = g)) as [<-|Hne].
  - rewrite lookup_insert_eq, known_ids_consistent by done. congruence.
  - rewrite lookup_insert_ne by done. apply Hloaded.
Qed.

Lemma covered_mono st st' c :
  (∀ g, ids_in_file hdr st g ⊆ ids_in_file hdr st' g) → covered hdr st c → covered hdr st' c.
Proof. destruct c as [[f l] i]. intros Hsub. apply Hsub. Qed.

Lemma do_calls_consistent cs st :
  consistent hdr st → Forall (well_formed_call hdr) cs →
  let st' := exec (do_calls hdr cs) st in
  consistent hdr st' ∧ Forall (covered hdr st') cs ∧
  (∀ g, ids_in_file hdr st g ⊆ ids_in_file hdr st' g) ∧
  (∀ g, is_Some (fs st !! g) → is_Some (fs st' !! g)).
Proof.
  revert st. induction cs as [|c cs IH]; intros st Hcons Hwf; simpl.
  { change (exec (do_calls hdr []) st) with st. by split; [|split; [constructor|]]. }
  apply Forall_cons in Hwf as [Hc Hcs].
  unfold do_calls. rewrite exec_for_each_cons.
  destruct (do_call_consistent st c Hcons Hc) as (Hcons1 & Hcov1 & Hsub1 & Hex1).
  destruct (IH _ Hcons1 Hcs) as (Hcons2 & Hcov2 & Hsub2 & Hex2).
  split; [done|]. split; [|split].
  - apply Forall_cons. split; [|done]. by apply (covered_mono _ _ _ Hsub2).
  - intros g. etrans; [apply Hsub1|apply Hsub2].
  - intros g Hg. by apply Hex2, Hex1.
Qed.

Lemma do_calls_covered cs st :
  consistent hdr st → Forall (covered hdr st) cs →
  let st' := exec (do_calls hdr cs) st in
  fs st' = fs st ∧ consistent hdr st'.
Proof.
  revert st. induction cs as [|c cs IH]; intros st Hcons Hcov; simpl; [done|].
  apply Forall_cons in Hcov as [Hc Hcs].
  unfold do_calls. rewrite exec_for_each_cons.
  destruct (do_call_covered st c Hcons Hc) as (Hfs1 & Hcons1).
  assert (Hcs1 : Forall (covered hdr (exec (do_call hdr c) st)) cs).
  { eapply Forall_impl; [exact Hcs|]. intros [[f l] i]. unfold covered, ids_in_file, file_content.
    by rewrite Hfs1. }
  destruct (IH _ Hcons1 Hcs1) as (Hfs2 & Hcons2).
  split; [|done]. etrans; [apply Hfs2|apply Hfs1].
Qed.

End Ledgers.

(** ** The processing loop as a sequence of ledger calls *)

Lemma same_ledgers_refl st : same_ledgers st st.
Proof. done. Qed.

Lemma same_ledgers_sym st1 st2 : same_ledgers st1 st2 → same_ledgers st2 st1.
Proof. intros [H1 H2]. by split. Qed.

Lemma same_ledgers_trans st1 st2 st3 :
  same_ledgers st1 st2 → same_ledgers st2 st3 → same_ledgers st1 st3.
Proof. intros [H1 H2] [H3 H4]. split; congruence. Qed.

Lemma append_same_ledgers filename line isolate_id header_line st1 st2 :
  same_ledgers st1 st2 →
  same_ledgers
    (exec (append_line_if_not_exists filename line isolate_id header_line) st1)
    (exec (append_line_if_not_exists filename line isolate_id header_line) st2).
Proof.
  intros [Hfs Hids]. rewrite !append_exec.
  assert (known_ids st1 filename header_line = known_ids st2 filename header_line)
    as Hknown by (unfold known_ids; by rewrite Hfs, Hids).
  rewrite Hknown. unfold skip_state, commit_state, same_ledgers.
  case_bool_decide; simpl; by rewrite ?Hfs, ?Hids, ?Hknown.
Qed.

Lemma do_calls_same_ledgers hdr cs st1 st2 :
  same_ledgers st1 st2 →
  same_ledgers (exec (do_calls hdr cs) st1) (exec (do_calls hdr cs) st2).
Proof.
  revert st1 st2. induction cs as [|[[f l] i] cs IH]; intros st1 st2 Hsame; [done|].
  unfold do_calls. rewrite !exec_for_each_cons. apply IH.
  rewrite !exec_do_call. by apply append_same_ledgers.
Qed.

Section Calls.
Variable CLADE_DIR : string.
Variable auriclass : string → classifier_run.

Lemma sample_clade_allowed reads1 clade :
  sample_clade auriclass reads1 = Some clade → clade ∈ allowed_clades.
Proof.
  unfold sample_clade. destruct (negb _); [done|].
  destruct (report_after _) as [[|header [|[|f0 [|f1 more]] rest]]|]; try done.
  case_bool_decide; [|done]. by intros [= <-].
Qed.

Lemma process_sample_cases contigs_dict isolate_id reads1 reads2 st :
  match sample_clade auriclass reads1 with
  | Some clade =>
      exec (process_sample CLADE_DIR auriclass contigs_dict
              (isolate_id, (reads1, reads2))) st =
      exec (commit_sample CLADE_DIR contigs_dict isolate_id reads1 reads2 clade)
           (classified_state auriclass st isolate_id reads1 clade)
  | None =>
      same_ledgers
        (exec (process_sample CLADE_DIR auriclass contigs_dict
                 (isolate_id, (reads1, reads2))) st) st
  end.
Proof.
  unfold sample_clade.
  destruct (returncode (auriclass reads1) =? 0)%Z eqn:Hrc; cbn [negb].
  2:{ apply Z.eqb_neq in Hrc.
      destruct (process_sample_failure CLADE_DIR auriclass contigs_dict isolate_id
                  reads1 reads2 st (or_introl Hrc)) as [msgs Heq].
      unfold exec. by rewrite Heq. }
  apply Z.eqb_eq in Hrc.
  destruct (report_after (auriclass reads1))
    as [[|header [|[|f0 [|f1 more]] rest]]|] eqn:Hrep.
  5:{ unfold exec.
      rewrite (process_sample_classified _ _ _ _ _ _ _ _ _ _ _ _ Hrc Hrep).
      by case_bool_decide. }
  5:{ destruct (process_sample_failure CLADE_DIR auriclass contigs_dict isolate_id
                  reads1 reads2 st (or_intror Hrep)) as [msgs Heq].
      unfold exec. by rewrite Heq. }
  all: unfold exec, process_sample, run_auriclass, subprocess_run, parse_report,
         print, mbind, M_bind, mret, M_ret; simpl;
       rewrite Hrc, Hrep; done.
Qed.

Lemma summary_header_summary :
  summary_header CLADE_DIR (SUMMARY_FILE CLADE_DIR) = Some HEADER_LINE.
Proof. unfold summary_header. by rewrite decide_True. Qed.

Lemma summary_header_clade_files clade :
  clade ∈ allowed_clades →
  summary_header CLADE_DIR (clade_reads_file CLADE_DIR clade) = None ∧
  summary_header CLADE_DIR (clade_contigs_file CLADE_DIR clade) = None.
Proof.
  intros Hin. destruct (ledger_files_distinct CLADE_DIR clade Hin) as (_ & Hr & Hc).
  unfold summary_header. by rewrite !decide_False.
Qed.

Lemma process_sample_ledgers contigs_dict item st :
  same_ledgers
    (exec (process_sample CLADE_DIR auriclass contigs_dict item) st)
    (exec (do_calls (summary_header CLADE_DIR) (ledger_calls CLADE_DIR auriclass contigs_dict item)) st).
Proof.
  destruct item as [isolate_id [reads1 reads2]].
  pose proof (process_sample_cases contigs_dict isolate_id reads1 reads2 st) as Hcases.
  unfold ledger_calls.
  destruct (sample_clade auriclass reads1) as [clade|] eqn:Hclade; [|done].
  rewrite Hcases. clear Hcases.
  apply sample_clade_allowed in Hclade.
  destruct (summary_header_clade_files clade Hclade) as [Hhr Hhc].
  unfold commit_sample, do_calls.
  rewrite exec_bind, exec_for_each_cons, exec_do_call, Hhr.
  set (c1 := append_line_if_not_exists (clade_reads_file CLADE_DIR clade) _ _ _).
  assert (H1 : same_ledgers
                 (exec c1 (classified_state auriclass st isolate_id reads1 clade))
                 (exec c1 st)) by by apply append_same_ledgers.
  revert H1. generalize (exec c1 st).
  generalize (exec c1 (classified_state auriclass st isolate_id reads1 clade)).
  clear c1. intros s1 s1' H1.
  rewrite exec_bind, exec_for_each_app.
  set (mid := exec _ s1). set (mid' := exec _ s1').
  assert (H2 : same_ledgers mid mid').
  { subst mid mid'.
    destruct (contigs_dict !! isolate_id) as [p|]; [destruct (String.eqb p "")|];
      try done.
    rewrite exec_bind, exec_for_each_cons, exec_do_call, Hhc.
    by apply append_same_ledgers. }
  revert H2. generalize mid mid'. clear. intros s2 s2' H2.
  rewrite exec_bind, exec_for_each_cons, exec_do_call, summary_header_summary.
  rewrite !exec_bind, !exec_print.
  by apply append_same_ledgers.
Qed.

Lemma main_loop_ledgers contigs_dict reads_dict st :
  same_ledgers
    (exec (main_loop CLADE_DIR auriclass reads_dict contigs_dict) st)
    (exec (do_calls (summary_header CLADE_DIR) (all_calls CLADE_DIR auriclass contigs_dict reads_dict)) st).
Proof.
  revert st. induction reads_dict as [|item items IH]; intros st; [done|].
  unfold main_loop, all_calls, do_calls in *. cbn [map concat].
  rewrite exec_for_each_cons, exec_for_each_app.
  eapply same_ledgers_trans; [apply IH|].
  apply do_calls_same_ledgers, process_sample_ledgers.
Qed.

End Calls.

(** ** The loaders as pure functions *)

Lemma with_out_nil st : with_out st [] = st.
Proof. destruct st. unfold with_out. simpl. by rewrite app_nil_r. Qed.

Lemma with_out_app st msgs1 msgs2 :
  with_out (with_out st msgs1) msgs2 = with_out st (msgs1 ++ msgs2)%list.
Proof. unfold with_out. simpl. by rewrite app_assoc. Qed.

Lemma fold_rows_pure {D} (step : D → list string → M D) (entry : D → list string → D) :
  (∀ d row st, ∃ msgs, step d row st = (entry d row, with_out st msgs)) →
  ∀ rows d st, ∃ msgs,
    fold_rows step d rows st = (fold_left entry rows d, with_out st msgs).
Proof.
  intros Hstep rows. induction rows as [|row rows IH]; intros d st.
  - exists []. by rewrite with_out_nil.
  - destruct (Hstep d row st) as [msgs1 H1].
    destruct (IH (entry d row) (with_out st msgs1)) as [msgs2 H2].
    exists (msgs1 ++ msgs2)%list. rewrite fold_rows_cons. unfold eval, exec.
    rewrite H1. simpl. by rewrite H2, with_out_app.
Qed.

Lemma load_reads_pure READS_TAB rows st :
  ∃ msgs, load_reads READS_TAB rows st = (reads_entries rows, with_out st msgs).
Proof.
  apply fold_rows_pure. clear. intros d row st.
  unfold load_reads_row, reads_entry.
  destruct (skipped_row row); [exists []; by rewrite with_out_nil|].
  destruct row as [|f0 [|f1 [|f2 [|f3 more]]]];
    first [exists []; by rewrite with_out_nil
          |by eexists [MsgMalformedRow READS_TAB _]].
Qed.

Lemma load_contigs_pure CONTIGS_TAB rows st :
  ∃ msgs, load_contigs CONTIGS_TAB rows st = (contigs_entries rows, with_out st msgs).
Proof.
  apply fold_rows_pure. clear. intros d row st.
  unfold load_contigs_row, contigs_entry.
  destruct (skipped_row row); [exists []; by rewrite with_out_nil|].
  destruct row as [|f0 [|f1 [|f2 more]]];
    first [exists []; by rewrite with_out_nil
          |by eexists [MsgMalformedRow CONTIGS_TAB _]].
Qed.

(** ** Tables whose rows read back from the ledgers *)

Lemma dict_set_clean reads_dict isolate_id reads1 reads2 :
  Forall clean_item reads_dict → clean_item (isolate_id, (reads1, reads2)) →
  Forall clean_item (dict_set reads_dict isolate_id (reads1, reads2)).
Proof.
  intros Hd Hitem. induction Hd as [|[k v] d Hkv Hd IH]; simpl.
  - apply Forall_cons. split; [done|]. by apply Forall_nil.
  - destruct (String.eqb k isolate_id); apply Forall_cons; by split.
Qed.

Lemma reads_entries_clean rows :
  forallb clean_reads_row rows = true → Forall clean_item (reads_entries rows).
Proof.
  unfold reads_entries.
  assert (Hd : Forall clean_item []) by constructor.
  revert Hd. generalize (@nil (string * (string * string))).
  induction rows as [|row rows IH]; intros d Hd; simpl; [done|].
  intros [Hrow Hrows]%andb_prop. apply IH; [|done].
  unfold reads_entry, clean_reads_row in *.
  destruct (skipped_row row); [done|]. simpl in Hrow.
  destruct row as [|f0 [|f1 [|f2 [|f3 more]]]]; try done.
  apply dict_set_clean; [done|].
  apply andb_prop in Hrow as [[H0 H1]%andb_prop H2]. done.
Qed.

Lemma contigs_entries_clean rows :
  forallb clean_contigs_row rows = true → clean_contigs (contigs_entries rows).
Proof.
  unfold contigs_entries.
  assert (Hd : clean_contigs ∅) by (intros k p; by rewrite lookup_empty).
  revert Hd. generalize (∅ : gmap string string).
  induction rows as [|row rows IH]; intros d Hd; simpl; [done|].
  intros [Hrow Hrows]%andb_prop. apply IH; [|done].
  unfold contigs_entry, clean_contigs_row in *.
  destruct (skipped_row row); [done|]. simpl in Hrow.
  destruct row as [|f0 [|f1 [|f2 more]]]; try done.
  intros k p. destruct (decide (f0 = k)) as [->|Hne].
  - rewrite lookup_insert_eq. by intros [= <-].
  - rewrite lookup_insert_ne by done. apply Hd.
Qed.

(** ** A second run over clean tables writes nothing *)

Lemma summary_row_not_header isolate_id clade :
  clean_id isolate_id = true → clade ∈ allowed_clades →
  is_header (Some HEADER_LINE) (isolate_id ++ TAB ++ clade ++ LF) = false.
Proof.
  intros Hclean Hin.
  destruct (clean_id_inv _ Hclean) as ((c & s' & Hid & Hc) & _ & Htab & _).
  apply allowed_clades_cases in Hin.
  unfold is_header. apply String.eqb_neq. intros Heq.
  assert (Hstrip : strip (isolate_id ++ TAB ++ clade ++ LF) =
                   isolate_id ++ TAB ++ clade).
  { unfold strip. rewrite lstrip_id by (subst isolate_id; by rewrite append_cons).
    rewrite rstrip_app.
    - destruct Hin as [->|[->|[->|[->|[->| ->]]]]]; vm_compute; reflexivity.
    - destruct Hin as [->|[->|[->|[->|[->| ->]]]]]; vm_compute; discriminate. }
  rewrite Hstrip in Heq.
  assert (Hfirst : isolate_id = "Isolate_ID").
  { apply (f_equal first_field) in Heq.
    by rewrite first_field_app_tab in Heq. }
  rewrite Hfirst in Heq.
  destruct Hin as [->|[->|[->|[->|[->| ->]]]]]; vm_compute in Heq;
    discriminate Heq.
Qed.

Lemma ledger_calls_well_formed CLADE_DIR auriclass contigs_dict item :
  clean_item item → clean_contigs contigs_dict →
  Forall (well_formed_call (summary_header CLADE_DIR))
         (ledger_calls CLADE_DIR auriclass contigs_dict item).
Proof.
  destruct item as [isolate_id [reads1 reads2]].
  intros (Hid & Hr1 & Hr2) Hcontigs. simpl in Hid, Hr1, Hr2.
  unfold ledger_calls.
  destruct (sample_clade auriclass reads1) as [clade|] eqn:Hclade;
    [|by apply Forall_nil].
  apply sample_clade_allowed in Hclade.
  destruct (summary_header_clade_files CLADE_DIR clade Hclade) as [Hhr Hhc].
  apply Forall_cons. split.
  { exists (reads1 ++ TAB ++ reads2). rewrite Hhr, !append_assoc.
    repeat split; try done. by rewrite !no_newline_app, Hr1, Hr2. }
  apply Forall_app. split.
  - destruct (contigs_dict !! isolate_id) as [p|] eqn:Hp; [|by apply Forall_nil].
    destruct (String.eqb p ""); [by apply Forall_nil|].
    apply Forall_cons. split; [|by apply Forall_nil].
    exists p. rewrite Hhc. repeat split; try done. by apply (Hcontigs isolate_id).
  - apply Forall_cons. split; [|by apply Forall_nil].
    exists clade. rewrite summary_header_summary.
    repeat split; try done.
    + apply allowed_clades_cases in Hclade.
      by destruct Hclade as [->|[->|[->|[->|[->| ->]]]]].
    + by apply summary_row_not_header.
Qed.

Lemma all_calls_well_formed CLADE_DIR auriclass contigs_dict reads_dict :
  Forall clean_item reads_dict → clean_contigs contigs_dict →
  Forall (well_formed_call (summary_header CLADE_DIR))
         (all_calls CLADE_DIR auriclass contigs_dict reads_dict).
Proof.
  intros Hitems Hcontigs. unfold all_calls.
  induction Hitems as [|item items Hitem Hitems IH]; simpl; [by apply Forall_nil|].
  apply Forall_app. split; [|done]. by apply ledger_calls_well_formed.
Qed.

(** After the summary file has been created, files and sets of known
    identifiers are in step and the summary file exists. *)
Lemma create_summary_file_consistent CLADE_DIR st :
  consistent (summary_header CLADE_DIR) st →
  let st' := exec (create_summary_file CLADE_DIR) st in
  consistent (summary_header CLADE_DIR) st' ∧
  is_Some (fs st' !! SUMMARY_FILE CLADE_DIR) ∧
  (∀ g content, fs st !! g = Some content → fs st' !! g = Some content) ∧
  (is_Some (fs st !! SUMMARY_FILE CLADE_DIR) → st' = st).
Proof.
  intros Hcons st'. subst st'.
  unfold create_summary_file, exec, mbind, M_bind, path_exists, write_text,
    set_ids, mret, M_ret. simpl.
  case_bool_decide as Hex; simpl; [done|].
  split; [|split; [|split]]; [| |..].
  - intros g. destruct (Hcons g) as [Hterm Hloaded].
    unfold ids_in_file, file_content in *. simpl.
    destruct (decide (SUMMARY_FILE CLADE_DIR = g)) as [<-|Hne].
    + rewrite !lookup_insert_eq. simpl. split; [by vm_compute|].
      intros ids [= <-]. rewrite summary_header_summary. by vm_compute.
    + rewrite !lookup_insert_ne by done. done.
  - rewrite lookup_insert_eq. eauto.
  - intros g content Hg. rewrite lookup_insert_ne; [done|].
    intros <-. apply Hex. eauto.
  - done.
Qed.

(** The files of a run are those its ledger calls leave, starting from
    the state in which the summary file has been created. *)
Lemma main_ledgers READS_TAB CONTIGS_TAB CLADE_DIR auriclass reads_rows contigs_rows st :
  same_ledgers
    (exec (main READS_TAB CONTIGS_TAB CLADE_DIR auriclass reads_rows contigs_rows) st)
    (exec (do_calls (summary_header CLADE_DIR)
             (all_calls CLADE_DIR auriclass (contigs_entries contigs_rows)
                (reads_entries reads_rows)))
          (exec (create_summary_file CLADE_DIR) st)).
Proof.
  unfold main. rewrite exec_bind.
  set (st1 := exec (create_summary_file CLADE_DIR) st).
  rewrite exec_bind.
  destruct (load_reads_pure READS_TAB reads_rows st1) as [msgs1 Hreads].
  unfold eval at 1, exec at 2. rewrite Hreads. simpl.
  rewrite exec_bind.
  destruct (load_contigs_pure CONTIGS_TAB contigs_rows (with_out st1 msgs1))
    as [msgs2 Hcontigs].
  unfold eval at 1, exec at 2. rewrite Hcontigs. simpl.
  rewrite exec_bind, exec_print.
  eapply same_ledgers_trans; [|eapply same_ledgers_trans].
  2: apply main_loop_ledgers.
  - done.
  - by apply do_calls_same_ledgers.
Qed.

(** X1.  A second run writes nothing.  When every file of the ledger
    directory ends with a line feed or is empty, and every loaded row of
    the tables is clean (the identifier is not empty and has no white
    space at its ends, no tab and no line break; the paths have no line
    break), running the script again on the same tables, with the files
    the first run left, leaves every file as it is. *)
Theorem rerun_writes_nothing READS_TAB CONTIGS_TAB CLADE_DIR auriclass
    (files : gmap string string) report reads_rows contigs_rows :
  (∀ f, terminated (default "" (files !! f)) = true) →
  forallb clean_reads_row reads_rows = true →
  forallb clean_contigs_row contigs_rows = true →
  let first := run_pipeline READS_TAB CONTIGS_TAB CLADE_DIR auriclass
                 files report reads_rows contigs_rows in
  let second := run_pipeline READS_TAB CONTIGS_TAB CLADE_DIR auriclass
                  (fs first) (report_tsv first) reads_rows contigs_rows in
  fs second = fs first.
Proof.
  intros Hfiles Hreads Hcontigs first second.
  set (hdr := summary_header CLADE_DIR).
  set (cs := all_calls CLADE_DIR auriclass (contigs_entries contigs_rows)
               (reads_entries reads_rows)).
  assert (Hwf : Forall (well_formed_call hdr) cs).
  { apply all_calls_well_formed;
      [by apply reads_entries_clean|by apply contigs_entries_clean]. }
  (* the first run *)
  assert (Hcons0 : consistent hdr (start files report)).
  { intros f. split; [apply Hfiles|]. intros ids. simpl. by rewrite lookup_empty. }
  destruct (create_summary_file_consistent CLADE_DIR _ Hcons0)
    as (Hcons1 & Hex1 & _ & _).
  destruct (do_calls_consistent hdr cs _ Hcons1 Hwf)
    as (Hcons2 & Hcov2 & _ & Hex2).
  destruct (main_ledgers READS_TAB CONTIGS_TAB CLADE_DIR auriclass
              reads_rows contigs_rows (start files report)) as [Hfs1 _].
  fold cs hdr in Hfs1. fold first in Hfs1.
  change (exec (main READS_TAB CONTIGS_TAB CLADE_DIR auriclass reads_rows
                  contigs_rows) (start files report)) with first in Hfs1.
  (* the second run *)
  set (st2 := start (fs first) (report_tsv first)).
  assert (Hcons3 : consistent hdr st2).
  { intros f. split.
    - unfold file_content, st2. simpl. rewrite Hfs1. apply Hcons2.
    - intros ids. simpl. by rewrite lookup_empty. }
  assert (Hsame : exec (create_summary_file CLADE_DIR) st2 = st2).
  { apply create_summary_file_consistent; [done|].
    unfold st2. simpl. rewrite Hfs1. by apply Hex2. }
  assert (Hcov3 : Forall (covered hdr st2) cs).
  { eapply Forall_impl; [exact Hcov2|]. intros [[f l] i].
    unfold covered, ids_in_file, file_content, st2. simpl. by rewrite Hfs1. }
  destruct (do_calls_covered hdr cs st2 Hcons3 Hcov3) as [Hfs2 _].
  destruct (main_ledgers READS_TAB CONTIGS_TAB CLADE_DIR auriclass
              reads_rows contigs_rows st2) as [Hfs3 _].
  fold cs hdr in Hfs3. rewrite Hsame in Hfs3.
  subst second. unfold run_pipeline. fold st2. by rewrite Hfs3, Hfs2.
Qed.

(** ** Rows of a ledger file, with their multiplicity *)

Lemma fold_load_line_list header_line ls acc :
  fold_left (load_line header_line) ls acc =
  list_to_set (map (λ l, strip (first_field l))
                 (List.filter (kept_line header_line) ls)) ∪ acc.
Proof.
  revert acc. induction ls as [|l ls IH]; intros acc; simpl.
  - by rewrite (left_id_L ∅ (∪)).
  - rewrite IH. unfold load_line, kept_line.
    destruct (String.eqb (strip l) ""); simpl; [done|].
    destruct (is_header header_line l); simpl; [done|].
    rewrite (assoc_L (∪)). f_equal. apply (comm_L (∪)).
Qed.

Lemma load_existing_ids_list header_line content :
  load_existing_ids header_line content =
  list_to_set (file_ids header_line content).
Proof.
  unfold load_existing_ids, file_ids. rewrite fold_load_line_list.
  by rewrite (right_id_L ∅ (∪)).
Qed.

Lemma kept_line_row header_line isolate_id payload :
  clean_id isolate_id = true →
  is_header header_line (isolate_id ++ TAB ++ payload ++ LF) = false →
  kept_line header_line (isolate_id ++ TAB ++ payload ++ LF) = true.
Proof.
  intros Hclean Hhead.
  destruct (clean_id_inv _ Hclean) as ((c & s' & -> & Hc) & _).
  unfold kept_line. rewrite Hhead, andb_true_r. apply negb_true_iff.
  apply String.eqb_neq. unfold strip. rewrite append_cons. simpl. rewrite Hc.
  by apply rstrip_cons_nonspace.
Qed.

Lemma file_ids_append header_line content isolate_id payload :
  terminated content = true →
  clean_id isolate_id = true → no_newline payload = true →
  is_header header_line (isolate_id ++ TAB ++ payload ++ LF) = false →
  file_ids header_line (content ++ isolate_id ++ TAB ++ payload ++ LF) =
  (file_ids header_line content ++ [isolate_id])%list.
Proof.
  intros Hterm Hclean Hpay Hhead. unfold file_ids.
  rewrite readlines_app, List.filter_app, map_app, readlines_row by done.
  simpl. rewrite kept_line_row by done. simpl.
  destruct (clean_id_inv _ Hclean) as (_ & Hstrip & Htab & _).
  by rewrite first_field_app_tab, Hstrip.
Qed.

Lemma do_call_duplicate_free hdr st c :
  consistent hdr st → duplicate_free hdr st → well_formed_call hdr c →
  duplicate_free hdr (exec (do_call hdr c) st).
Proof.
  destruct c as [[filename line] isolate_id].
  intros Hcons Hdup (payload & -> & Hclean & Hpay & Hhead) g.
  rewrite exec_do_call, append_exec, known_ids_consistent by done.
  case_bool_decide as Hknown; [apply Hdup|].
  rewrite file_content_commit. case_decide as Hg; [subst g|apply Hdup].
  rewrite file_ids_append by (try done; apply Hcons).
  apply NoDup_app. split; [apply Hdup|]. split; [|apply NoDup_singleton].
  intros x Hx ->%list_elem_of_singleton. apply Hknown.
  unfold ids_in_file. rewrite load_existing_ids_list.
  by apply elem_of_list_to_set.
Qed.

Lemma do_calls_duplicate_free hdr cs st :
  consistent hdr st → duplicate_free hdr st → Forall (well_formed_call hdr) cs →
  duplicate_free hdr (exec (do_calls hdr cs) st).
Proof.
  revert st. induction cs as [|c cs IH]; intros st Hcons Hdup Hwf; [done|].
  apply Forall_cons in Hwf as [Hc Hcs].
  unfold do_calls. rewrite exec_for_each_cons. apply IH; [|by apply do_call_duplicate_free|done].
  by apply do_call_consistent.
Qed.

(** X2.  No identifier twice.  When every file of the ledger directory
    ends with a line feed or is empty and holds no identifier in two of
    its rows, and every loaded row of the tables is clean, then after a
    run no file holds an identifier in two of its rows (the summary file
    read with its header, the clade files without). *)
Theorem run_keeps_files_duplicate_free READS_TAB CONTIGS_TAB CLADE_DIR auriclass
    (files : gmap string string) report reads_rows contigs_rows :
  (∀ f, terminated (default "" (files !! f)) = true) →
  (∀ f, NoDup (file_ids (summary_header CLADE_DIR f) (default "" (files !! f)))) →
  forallb clean_reads_row reads_rows = true →
  forallb clean_contigs_row contigs_rows = true →
  let final := run_pipeline READS_TAB CONTIGS_TAB CLADE_DIR auriclass
                 files report reads_rows contigs_rows in
  ∀ f, NoDup (file_ids (summary_header CLADE_DIR f) (default "" (fs final !! f))).
Proof.
  intros Hfiles Hnodup Hreads Hcontigs final.
  set (hdr := summary_header CLADE_DIR).
  set (cs := all_calls CLADE_DIR auriclass (contigs_entries contigs_rows)
               (reads_entries reads_rows)).
  assert (Hwf : Forall (well_formed_call hdr) cs).
  { apply all_calls_well_formed;
      [by apply reads_entries_clean|by apply contigs_entries_clean]. }
  assert (Hcons0 : consistent hdr (start files report)).
  { intros f. split; [apply Hfiles|]. intros ids. simpl. by rewrite lookup_empty. }
  destruct (create_summary_file_consistent CLADE_DIR _ Hcons0)
    as (Hcons1 & Hex1 & Hkeep & Hsame).
  set (st1 := exec (create_summary_file CLADE_DIR) (start files report)) in *.
  assert (Hdup1 : duplicate_free hdr st1).
  { intros f. unfold file_content.
    destruct (files !! f) as [content|] eqn:Hf.
    - rewrite (Hkeep f content) by done. specialize (Hnodup f).
      by rewrite Hf in Hnodup.
    - destruct (decide (f = SUMMARY_FILE CLADE_DIR)) as [->|Hne].
      + subst st1. unfold create_summary_file, exec, mbind, M_bind, path_exists,
          write_text, set_ids, mret, M_ret. simpl.
        rewrite bool_decide_false by (rewrite Hf; by intros [? ?]). simpl.
        rewrite lookup_insert_eq. unfold hdr. rewrite summary_header_summary.
        vm_compute. apply NoDup_nil_2.
      + subst st1. unfold create_summary_file, exec, mbind, M_bind, path_exists,
          write_text, set_ids, mret, M_ret. simpl.
        case_bool_decide; simpl.
        * rewrite Hf. apply NoDup_nil_2.
        * rewrite lookup_insert_ne, Hf by done. apply NoDup_nil_2. }
  pose proof (do_calls_duplicate_free hdr cs st1 Hcons1 Hdup1 Hwf) as Hdup2.
  destruct (main_ledgers READS_TAB CONTIGS_TAB CLADE_DIR auriclass
              reads_rows contigs_rows (start files report)) as [Hfs _].
  intros f. subst final. unfold run_pipeline. rewrite Hfs. apply Hdup2.
Qed.

(** ** What a run does to the files it finds *)

Lemma append_keeps_prefix filename line isolate_id header_line st g content :
  fs st !! g = Some content →
  ∃ suffix,
    fs (exec (append_line_if_not_exists filename line isolate_id header_line) st)
      !! g = Some (content ++ suffix).
Proof.
  intros Hg. rewrite append_exec. case_bool_decide; simpl.
  - exists "". by rewrite append_nil_r.
  - destruct (decide (filename = g)) as [->|Hne].
    + exists line. by rewrite lookup_insert_eq, Hg.
    + exists "". by rewrite lookup_insert_ne, append_nil_r.
Qed.

Lemma do_calls_keep_prefix hdr cs st g content :
  fs st !! g = Some content →
  ∃ suffix, fs (exec (do_calls hdr cs) st) !! g = Some (content ++ suffix).
Proof.
  revert st content. induction cs as [|[[f l] i] cs IH]; intros st content Hg.
  - exists "". by rewrite append_nil_r.
  - unfold do_calls. rewrite exec_for_each_cons, exec_do_call.
    destruct (append_keeps_prefix f l i (hdr f) st g content Hg) as [s1 H1].
    destruct (IH _ _ H1) as [s2 H2].
    exists (s1 ++ s2). by rewrite <- append_assoc.
Qed.

Lemma create_summary_file_keeps CLADE_DIR st g content :
  fs st !! g = Some content →
  fs (exec (create_summary_file CLADE_DIR) st) !! g = Some content.
Proof.
  intros Hg.
  unfold create_summary_file, exec, mbind, M_bind, path_exists, write_text,
    set_ids, mret, M_ret. simpl.
  case_bool_decide as Hex; simpl; [done|].
  rewrite lookup_insert_ne; [done|]. intros <-. apply Hex. eauto.
Qed.

(** X3.  Files only grow.  The content a file has when the script
    starts is a prefix of its content when the script ends: no row that
    is in a ledger is rewritten or removed, and no file is deleted. *)
Theorem run_only_appends READS_TAB CONTIGS_TAB CLADE_DIR auriclass
    (files : gmap string string) report reads_rows contigs_rows g content :
  files !! g = Some content →
  ∃ suffix,
    fs (run_pipeline READS_TAB CONTIGS_TAB CLADE_DIR auriclass
          files report reads_rows contigs_rows) !! g = Some (content ++ suffix).
Proof.
  intros Hg. unfold run_pipeline.
  destruct (main_ledgers READS_TAB CONTIGS_TAB CLADE_DIR auriclass
              reads_rows contigs_rows (start files report)) as [-> _].
  apply do_calls_keep_prefix. by apply create_summary_file_keeps.
Qed.

Lemma ledger_calls_targets CLADE_DIR auriclass contigs_dict item :
  Forall (λ c : ledger_call, c.1.1 ∈ ledger_targets CLADE_DIR)
         (ledger_calls CLADE_DIR auriclass contigs_dict item).
Proof.
  destruct item as [isolate_id [reads1 reads2]]. unfold ledger_calls.
  destruct (sample_clade auriclass reads1) as [clade|] eqn:Hclade;
    [|by apply Forall_nil].
  apply sample_clade_allowed in Hclade.
  assert (Hfiles : clade_reads_file CLADE_DIR clade ∈ ledger_targets CLADE_DIR ∧
                   clade_contigs_file CLADE_DIR clade ∈ ledger_targets CLADE_DIR).
  { unfold ledger_targets. split; apply elem_of_cons; right;
      apply list_elem_of_In, in_flat_map; exists clade;
      (split; [by apply list_elem_of_In|simpl; tauto]). }
  destruct Hfiles as [Hr Hc].
  apply Forall_cons. split; [done|]. apply Forall_app. split.
  - destruct (contigs_dict !! isolate_id) as [p|]; [|by apply Forall_nil].
    destruct (String.eqb p ""); [by apply Forall_nil|].
    apply Forall_cons. split; [done|by apply Forall_nil].
  - apply Forall_cons. split; [|by apply Forall_nil].
    simpl. unfold ledger_targets. apply elem_of_cons. by left.
Qed.

Lemma do_calls_frame hdr cs st (targets : list string) g :
  Forall (λ c : ledger_call, c.1.1 ∈ targets) cs → g ∉ targets →
  fs (exec (do_calls hdr cs) st) !! g = fs st !! g.
Proof.
  intros Hcs Hg. revert st.
  induction Hcs as [|[[f l] i] cs Hc Hcs IH]; intros st; [done|].
  unfold do_calls. rewrite exec_for_each_cons, exec_do_call.
  unfold do_calls in IH. rewrite IH. apply append_fs_other.
  intros ->. by apply Hg.
Qed.

(** X4.  Nothing else is written.  A path that is neither the summary
    file nor the reads or contigs file of one of the six allowed clades
    is after the run what it was before: same content, or still absent. *)
Theorem run_writes_only_ledger_files READS_TAB CONTIGS_TAB CLADE_DIR auriclass
    (files : gmap string string) report reads_rows contigs_rows g :
  g ∉ ledger_targets CLADE_DIR →
  fs (run_pipeline READS_TAB CONTIGS_TAB CLADE_DIR auriclass
        files report reads_rows contigs_rows) !! g = files !! g.
Proof.
  intros Hg. unfold run_pipeline.
  destruct (main_ledgers READS_TAB CONTIGS_TAB CLADE_DIR auriclass
              reads_rows contigs_rows (start files report)) as [-> _].
  rewrite (do_calls_frame _ _ _ (ledger_targets CLADE_DIR)); [|clear|done].
  - unfold create_summary_file, exec, mbind, M_bind, path_exists, write_text,
      set_ids, mret, M_ret. simpl.
    case_bool_decide; simpl; [done|].
    rewrite lookup_insert_ne; [done|]. intros <-. apply Hg.
    unfold ledger_targets. apply elem_of_cons. by left.
  - unfold all_calls.
    induction (reads_entries reads_rows) as [|item items IH]; simpl;
      [by apply Forall_nil|].
    apply Forall_app. split; [apply ledger_calls_targets|done].
Qed.

(** ** Calls of the ledger store within one run *)

Lemma append_keeps_known filename line isolate_id header_line st f ids :
  file_written_ids st !! f = Some ids →
  ∃ ids',
    file_written_ids
      (exec (append_line_if_not_exists filename line isolate_id header_line) st)
      !! f = Some ids' ∧ ids ⊆ ids'.
Proof.
  intros Hf. destruct (decide (filename = f)) as [->|Hne].
  - destruct (append_ids_same f line isolate_id header_line st)
      as (ids' & Hids' & _ & Hsub).
    exists ids'. split; [done|]. unfold known_ids in Hsub. by rewrite Hf in Hsub.
  - exists ids. by rewrite append_ids_other.
Qed.

(** X5.  One row per identifier and run.  Once the ledger store has
    been called for an identifier on a file, every later call of the
    same run for that identifier on that file returns [False] and writes
    nothing, whatever the calls in between, the lines and the header
    arguments are. *)
Theorem repeated_call_writes_nothing filename line isolate_id header_line
    (between : list raw_call) line' header_line' st :
  let st1 := exec (for_each do_raw_call between)
               (exec (append_line_if_not_exists filename line isolate_id
                        header_line) st) in
  let again := append_line_if_not_exists filename line' isolate_id header_line' in
  eval again st1 = false ∧ fs (exec again st1) = fs st1 ∧
  last (out (exec again st1)) = Some (MsgAlreadyExists isolate_id filename).
Proof.
  intros st1 again.
  assert (Hknown : ∃ ids, file_written_ids st1 !! filename = Some ids ∧
                          isolate_id ∈ ids).
  { subst st1.
    destruct (append_ids_same filename line isolate_id header_line st)
      as (ids & Hids & Hin & _).
    revert Hids. generalize (exec (append_line_if_not_exists filename line
                                     isolate_id header_line) st).
    revert ids Hin.
    induction between as [|[[[f l] i] h] cs IH]; intros ids Hin s Hids.
    - by exists ids.
    - rewrite exec_for_each_cons. unfold do_raw_call at 2. rewrite exec_bind.
      change (exec (mret ()) ?s) with s.
      destruct (append_keeps_known f l i h s filename ids Hids)
        as (ids' & Hids' & Hsub).
      apply (IH ids'); [by apply Hsub|done]. }
  destruct Hknown as (ids & Hids & Hin).
  assert (Hk : isolate_id ∈ known_ids st1 filename header_line').
  { unfold known_ids. by rewrite Hids. }
  subst again. rewrite append_eval, append_exec, bool_decide_true by done.
  simpl. by rewrite last_snoc.
Qed.

(** X6.  A committed row is found by the next run.  A process that
    finds a clean identifier unknown for a file ending with a line feed
    (or empty, or absent) appends the row; a fresh process then loads
    from the file the identifiers the first one knew and the new one,
    and its call for the identifier returns [False]. *)
Theorem committed_row_known_to_next_run (files : gmap string string) report report'
    filename isolate_id payload header_line line' :
  terminated (default "" (files !! filename)) = true →
  clean_id isolate_id = true → no_newline payload = true →
  is_header header_line (isolate_id ++ TAB ++ payload ++ LF) = false →
  isolate_id ∉ known_ids (start files report) filename header_line →
  let row := isolate_id ++ TAB ++ payload ++ LF in
  let st' := exec (append_line_if_not_exists filename row isolate_id header_line)
               (start files report) in
  let next := start (fs st') report' in
  fs st' !! filename = Some (default "" (files !! filename) ++ row) ∧
  known_ids next filename header_line =
    {[ isolate_id ]} ∪ known_ids (start files report) filename header_line ∧
  eval (append_line_if_not_exists filename line' isolate_id header_line) next
    = false.
Proof.
  intros Hterm Hclean Hpay Hhead Hnew row st' next.
  assert (Hfs : fs st' !! filename = Some (default "" (files !! filename) ++ row)).
  { subst st'. rewrite append_fs_same. by rewrite bool_decide_false. }
  assert (Hk : known_ids next filename header_line =
               {[ isolate_id ]} ∪ known_ids (start files report) filename header_line).
  { unfold known_ids, next. simpl. rewrite !lookup_empty, Hfs.
    subst row. rewrite load_existing_ids_append by done.
    by destruct (files !! filename). }
  split; [done|]. split; [done|].
  rewrite append_eval, Hk, bool_decide_true; [done|].
  apply elem_of_union. left. by apply elem_of_singleton.
Qed.

(** ** Isolates with every ledger row *)

Lemma three_calls_fs f1 f2 f3 l1 l2 l3 i h1 h2 h3 st :
  f1 ≠ f2 → f1 ≠ f3 → f2 ≠ f3 →
  let st' := exec (append_line_if_not_exists f3 l3 i h3)
               (exec (append_line_if_not_exists f2 l2 i h2)
                  (exec (append_line_if_not_exists f1 l1 i h1) st)) in
  fs st' !! f1 = (if bool_decide (i ∈ known_ids st f1 h1) then fs st !! f1
                  else Some (default "" (fs st !! f1) ++ l1)) ∧
  fs st' !! f2 = (if bool_decide (i ∈ known_ids st f2 h2) then fs st !! f2
                  else Some (default "" (fs st !! f2) ++ l2)) ∧
  fs st' !! f3 = (if bool_decide (i ∈ known_ids st f3 h3) then fs st !! f3
                  else Some (default "" (fs st !! f3) ++ l3)).
Proof.
  intros H12 H13 H23 st'. subst st'. repeat split.
  - rewrite !append_fs_other by done. apply append_fs_same.
  - rewrite append_fs_other, append_fs_same by done.
    by rewrite append_known_other, append_fs_other.
  - rewrite append_fs_same.
    by rewrite !append_known_other, !append_fs_other.
Qed.

(** X7.  An isolate with a contigs path gets its three rows.  For an
    isolate that classifies to an allowed clade and whose contigs-table
    entry is not empty, each of the clade's reads file, the clade's
    contigs file and the summary file is left as it was when the
    identifier was already known for it, and otherwise has the isolate's
    row appended; and the loop goes on with the next isolate. *)
Theorem isolate_with_contigs_commits_three_rows CLADE_DIR auriclass contigs_dict
    isolate_id reads1 reads2 st header f0 f1 more rest_rows contigs_path :
  returncode (auriclass reads1) = 0%Z →
  report_after (auriclass reads1) = Some (header :: (f0 :: f1 :: more) :: rest_rows) →
  strip f1 ∈ allowed_clades →
  contigs_dict !! isolate_id = Some contigs_path → contigs_path ≠ "" →
  let clade := strip f1 in
  let st' := exec (process_sample CLADE_DIR auriclass contigs_dict
                     (isolate_id, (reads1, reads2))) st in
  fs st' !! clade_reads_file CLADE_DIR clade =
    (if bool_decide (isolate_id ∈ known_ids st (clade_reads_file CLADE_DIR clade) None)
     then fs st !! clade_reads_file CLADE_DIR clade
     else Some (default "" (fs st !! clade_reads_file CLADE_DIR clade)
                ++ isolate_id ++ TAB ++ reads1 ++ TAB ++ reads2 ++ LF)) ∧
  fs st' !! clade_contigs_file CLADE_DIR clade =
    (if bool_decide (isolate_id ∈ known_ids st (clade_contigs_file CLADE_DIR clade) None)
     then fs st !! clade_contigs_file CLADE_DIR clade
     else Some (default "" (fs st !! clade_contigs_file CLADE_DIR clade)
                ++ isolate_id ++ TAB ++ contigs_path ++ LF)) ∧
  fs st' !! SUMMARY_FILE CLADE_DIR =
    (if bool_decide (isolate_id ∈ known_ids st (SUMMARY_FILE CLADE_DIR) (Some HEADER_LINE))
     then fs st !! SUMMARY_FILE CLADE_DIR
     else Some (default "" (fs st !! SUMMARY_FILE CLADE_DIR)
                ++ isolate_id ++ TAB ++ clade ++ LF)) ∧
  ∀ rest,
    exec (main_loop CLADE_DIR auriclass
            ((isolate_id, (reads1, reads2)) :: rest) contigs_dict) st =
    exec (main_loop CLADE_DIR auriclass rest contigs_dict) st'.
Proof.
  intros Hrc Hrep Hin Hpath Hne clade st'.
  destruct (ledger_files_distinct CLADE_DIR clade Hin) as (Hrc' & Hrs & Hcs).
  destruct (summary_header_clade_files CLADE_DIR clade Hin) as [Hhr Hhc].
  assert (Hclade : sample_clade auriclass reads1 = Some clade).
  { unfold sample_clade. rewrite Hrc, Hrep. simpl.
    by rewrite bool_decide_true. }
  destruct (process_sample_ledgers CLADE_DIR auriclass contigs_dict
              (isolate_id, (reads1, reads2)) st) as [Hfs _].
  fold st' in Hfs. unfold ledger_calls in Hfs.
  rewrite Hclade, Hpath in Hfs.
  apply String.eqb_neq in Hne. rewrite Hne in Hfs.
  unfold do_calls in Hfs. simpl in Hfs.
  rewrite !exec_bind in Hfs.
  change (exec (mret ()) ?s) with s in Hfs.
  rewrite Hhr, Hhc, summary_header_summary in Hfs.
  destruct (three_calls_fs (clade_reads_file CLADE_DIR clade)
              (clade_contigs_file CLADE_DIR clade) (SUMMARY_FILE CLADE_DIR)
              (isolate_id ++ TAB ++ reads1 ++ TAB ++ reads2 ++ LF)
              (isolate_id ++ TAB ++ contigs_path ++ LF)
              (isolate_id ++ TAB ++ clade ++ LF)
              isolate_id None None (Some HEADER_LINE) st Hrc' Hrs Hcs)
    as (H1 & H2 & H3).
  rewrite Hfs. repeat split; try done.
  intros rest. unfold main_loop. by rewrite exec_for_each_cons.
Qed.

(** X8.  A report that cannot be parsed skips the isolate.  When the
    classifier exits with status 0 and leaves a report without any row,
    without a data row, or with a data row of fewer than two columns,
    the iteration writes no file and changes no set of known
    identifiers, prints the notice that no clade was extracted last, and
    the loop goes on with the next isolate. *)
Theorem unparseable_report_writes_nothing CLADE_DIR auriclass contigs_dict
    isolate_id reads1 reads2 st rows :
  returncode (auriclass reads1) = 0%Z →
  report_after (auriclass reads1) = Some rows →
  (List.length rows < 2 ∨ ∃ row, nth_error rows 1 = Some row ∧ List.length row < 2)%nat →
  let st' := exec (process_sample CLADE_DIR auriclass contigs_dict
                     (isolate_id, (reads1, reads2))) st in
  fs st' = fs st ∧
  file_written_ids st' = file_written_ids st ∧
  last (out st') = Some (MsgSkipNoClade isolate_id) ∧
  ∀ rest,
    exec (main_loop CLADE_DIR auriclass
            ((isolate_id, (reads1, reads2)) :: rest) contigs_dict) st =
    exec (main_loop CLADE_DIR auriclass rest contigs_dict) st'.
Proof.
  intros Hrc Hrep Hshape st'.
  assert (Hloop : ∀ rest,
    exec (main_loop CLADE_DIR auriclass
            ((isolate_id, (reads1, reads2)) :: rest) contigs_dict) st =
    exec (main_loop CLADE_DIR auriclass rest contigs_dict) st').
  { intros rest. unfold main_loop. by rewrite exec_for_each_cons. }
  split; [|split; [|split; [|done]]]; clear Hloop; subst st';
    unfold exec, process_sample, run_auriclass, subprocess_run, parse_report,
      print, mbind, M_bind, mret, M_ret; simpl; rewrite Hrc, Hrep; simpl;
    destruct rows as [|header [|[|g0 [|g1 more]] rest]]; simpl;
    try done; try (by rewrite last_snoc);
    exfalso; destruct Hshape as [Hlen|(row & Hrow & Hlen)];
      simpl in *; try lia; injection Hrow as <-; simpl in Hlen; lia.
Qed.

(** ** Names of the ledger files, again *)

(** X9.  Ledger files never collide.  Whatever the ledger directory,
    two allowed clades share their reads file, or their contigs file,
    only when they are the same clade; no reads file is a contigs file;
    and neither is the summary file. *)
Theorem ledger_file_names_apart CLADE_DIR clade1 clade2 :
  clade1 ∈ allowed_clades → clade2 ∈ allowed_clades →
  (clade_reads_file CLADE_DIR clade1 = clade_reads_file CLADE_DIR clade2 →
   clade1 = clade2) ∧
  (clade_contigs_file CLADE_DIR clade1 = clade_contigs_file CLADE_DIR clade2 →
   clade1 = clade2) ∧
  clade_reads_file CLADE_DIR clade1 ≠ clade_contigs_file CLADE_DIR clade2 ∧
  clade_reads_file CLADE_DIR clade1 ≠ SUMMARY_FILE CLADE_DIR ∧
  clade_contigs_file CLADE_DIR clade1 ≠ SUMMARY_FILE CLADE_DIR.
Proof.
  intros H1 H2. apply allowed_clades_cases in H1, H2.
  unfold clade_reads_file, clade_contigs_file, SUMMARY_FILE.
  split; [|split; [|split; [|split]]]; intros Heq;
    apply path_join_inj in Heq;
    destruct H1 as [->|[->|[->|[->|[->| ->]]]]];
    try destruct H2 as [->|[->|[->|[->|[->| ->]]]]];
    first [reflexivity | discriminate Heq].
Qed.

(** ** The dictionaries the loader builds *)

Lemma dict_set_keys {V} (d : list (string * V)) k v :
  NoDup (map fst d) →
  NoDup (map fst (dict_set d k v)) ∧
  (k, v) ∈ dict_set d k v ∧
  (∀ k' v', k' ≠ k → (k', v') ∈ dict_set d k v ↔ (k', v') ∈ d) ∧
  (∀ k', k' ∈ map fst (dict_set d k v) ↔ k' = k ∨ k' ∈ map fst d).
Proof.
  induction d as [|[k0 v0] d IH]; simpl; intros Hnd.
  - split; [apply NoDup_singleton|]. split; [apply list_elem_of_singleton; done|].
    split.
    + intros k' v' Hne. rewrite list_elem_of_singleton, elem_of_nil.
      split; [|done]. intros [= -> _]. done.
    + intros k'. rewrite list_elem_of_singleton, elem_of_nil. tauto.
  - apply NoDup_cons in Hnd as [Hk0 Hnd].
    destruct (IH Hnd) as (IH1 & IH2 & IH3 & IH4).
    destruct (String.eqb k0 k) eqn:Hk.
    + apply String.eqb_eq in Hk. subst k0. simpl.
      split; [by apply NoDup_cons|]. split; [by apply elem_of_cons; left|].
      split.
      * intros k' v' Hne. rewrite !elem_of_cons.
        split; (intros [[= -> ->]|?]; [done|by right]).
      * intros k'. rewrite !elem_of_cons. tauto.
    + apply String.eqb_neq in Hk. simpl.
      split; [|split; [|split]].
      * apply NoDup_cons. split; [|done]. rewrite IH4. intros [?|?]; done.
      * apply elem_of_cons. by right.
      * intros k' v' Hne. rewrite !elem_of_cons. by rewrite IH3.
      * intros k'. rewrite !elem_of_cons, IH4. tauto.
Qed.

Lemma nodup_keys_functional {V} (d : list (string * V)) k v1 v2 :
  NoDup (map fst d) → (k, v1) ∈ d → (k, v2) ∈ d → v1 = v2.
Proof.
  induction d as [|[k0 v0] d IH]; simpl; intros Hnd H1 H2.
  { by apply elem_of_nil in H1. }
  apply NoDup_cons in Hnd as [Hk0 Hnd].
  assert (Hkey : ∀ v, (k0, v) ∈ d → False).
  { intros v Hv. apply Hk0. apply list_elem_of_In, in_map_iff.
    exists (k0, v). split; [done|]. by apply list_elem_of_In. }
  apply elem_of_cons in H1 as [[= -> ->]|H1], H2 as [[= ->]|H2].
  - done.
  - by destruct (Hkey v2).
  - subst. by destruct (Hkey v1).
  - by apply IH.
Qed.

Lemma reads_entries_keys rows : NoDup (map fst (reads_entries rows)).
Proof.
  unfold reads_entries.
  assert (Hd : NoDup (map fst (@nil (string * (string * string)))))
    by apply NoDup_nil_2.
  revert Hd. generalize (@nil (string * (string * string))).
  induction rows as [|row rows IH]; intros d Hd; simpl; [done|].
  apply IH. unfold reads_entry. destruct (skipped_row row); [done|].
  destruct row as [|f0 [|f1 [|f2 [|f3 more]]]]; try done.
  by apply dict_set_keys.
Qed.

Lemma reads_entries_snoc rows row :
  reads_entries (rows ++ [row]) = reads_entry (reads_entries rows) row.
Proof. unfold reads_entries. by rewrite fold_left_app. Qed.

(** X10.  One entry per isolate, the last row wins.  The reads
    dictionary holds every identifier once, so the loop meets each
    isolate once; and when the last row of the table has three fields
    and is no comment, the entry of its identifier carries the paths of
    that row, whatever earlier rows said, while the entries of the
    other identifiers are those of the table without the row. *)
Theorem reads_dict_last_row_wins READS_TAB rows isolate_id reads1 reads2 st :
  startswith "#" isolate_id = false →
  let reads_dict :=
    eval (load_reads READS_TAB (rows ++ [[isolate_id; reads1; reads2]])) st in
  NoDup (map fst reads_dict) ∧
  (∀ v, (isolate_id, v) ∈ reads_dict ↔ v = (reads1, reads2)) ∧
  (∀ k v, k ≠ isolate_id →
     (k, v) ∈ reads_dict ↔ (k, v) ∈ eval (load_reads READS_TAB rows) st).
Proof.
  intros Hstart reads_dict.
  destruct (load_reads_pure READS_TAB (rows ++ [[isolate_id; reads1; reads2]]) st)
    as [msgs Heq].
  destruct (load_reads_pure READS_TAB rows st) as [msgs' Heq'].
  subst reads_dict. unfold eval. rewrite Heq, Heq'. simpl.
  rewrite reads_entries_snoc. unfold reads_entry, skipped_row. rewrite Hstart.
  destruct (dict_set_keys (reads_entries rows) isolate_id (reads1, reads2)
              (reads_entries_keys rows)) as (Hnd & Hin & Hother & _).
  split; [done|]. split; [|done].
  intros v. split; [|by intros ->].
  intros Hv. by apply (nodup_keys_functional _ _ _ _ Hnd Hv Hin).
Qed.

Lemma contigs_entries_snoc rows row :
  contigs_entries (rows ++ [row]) = contigs_entry (contigs_entries rows) row.
Proof. unfold contigs_entries. by rewrite fold_left_app. Qed.

(** X11.  The last contigs row wins, and an isolate without a row has
    no path.  When the last row of the contigs table has two fields
    and is no comment, its identifier is mapped to its path and the
    other identifiers are mapped as by the table without the row; an
    identifier that is the first field of no row of the table is not
    mapped at all. *)
Theorem contigs_dict_last_row_wins CONTIGS_TAB rows isolate_id contigs st :
  startswith "#" isolate_id = false →
  let contigs_dict :=
    eval (load_contigs CONTIGS_TAB (rows ++ [[isolate_id; contigs]])) st in
  contigs_dict !! isolate_id = Some contigs ∧
  (∀ k, k ≠ isolate_id →
     contigs_dict !! k = eval (load_contigs CONTIGS_TAB rows) st !! k) ∧
  (∀ k, (∀ row, row ∈ rows → head row ≠ Some k) →
     eval (load_contigs CONTIGS_TAB rows) st !! k = None).
Proof.
  intros Hstart contigs_dict.
  destruct (load_contigs_pure CONTIGS_TAB (rows ++ [[isolate_id; contigs]]) st)
    as [msgs Heq].
  destruct (load_contigs_pure CONTIGS_TAB rows st) as [msgs' Heq'].
  subst contigs_dict. unfold eval. rewrite Heq, Heq'. simpl.
  rewrite contigs_entries_snoc. unfold contigs_entry at 1 2, skipped_row.
  rewrite Hstart.
  split; [by rewrite lookup_insert_eq|]. split.
  - intros k Hne. by rewrite lookup_insert_ne.
  - clear. intros k. unfold contigs_entries.
    assert (Hd : (∅ : gmap string string) !! k = None) by apply lookup_empty.
    revert Hd. generalize (∅ : gmap string string).
    induction rows as [|row rows IH]; intros d Hd Hrows; simpl; [done|].
    apply IH.
    + unfold contigs_entry. destruct (skipped_row row); [done|].
      destruct row as [|f0 [|f1 [|f2 more]]]; try done.
      rewrite lookup_insert_ne; [done|]. intros ->.
      apply (Hrows [k; f1]); [by apply elem_of_cons; left|done].
    + intros row' Hrow'. apply Hrows. by apply elem_of_cons; right.
Qed.

(** X12.  The loader writes nothing.  Loading a table changes no file,
    no set of known identifiers and not the report: it only prints; and
    the dictionary it returns depends on the rows alone, not on the state
    it is run in. *)
Theorem loaders_write_nothing READS_TAB CONTIGS_TAB rows st st2 :
  let reads := load_reads READS_TAB rows in
  let contigs := load_contigs CONTIGS_TAB rows in
  (fs (exec reads st) = fs st ∧
   file_written_ids (exec reads st) = file_written_ids st ∧
   report_tsv (exec reads st) = report_tsv st ∧
   eval reads st = eval reads st2) ∧
  (fs (exec contigs st) = fs st ∧
   file_written_ids (exec contigs st) = file_written_ids st ∧
   report_tsv (exec contigs st) = report_tsv st ∧
   eval contigs st = eval contigs st2).
Proof.
  intros reads contigs. subst reads contigs.
  destruct (load_reads_pure READS_TAB rows st) as [m1 H1].
  destruct (load_reads_pure READS_TAB rows st2) as [m2 H2].
  destruct (load_contigs_pure CONTIGS_TAB rows st) as [m3 H3].
  destruct (load_contigs_pure CONTIGS_TAB rows st2) as [m4 H4].
  unfold exec, eval. by rewrite H1, H2, H3, H4.
Qed.

(** ** filter_samples.py *)

Lemma remove_list_members_aux content x :
  (x ∈ load_remove_list content ↔
   x ≠ "" ∧ ∃ line, line ∈ readlines content ∧ x = strip line) ∧
  (x ∈ load_remove_list content →
   first_is_space x = false ∧ last_is_space x = false).
Proof.
  assert (Hiff : x ∈ load_remove_list content ↔
                 x ≠ "" ∧ ∃ line, line ∈ readlines content ∧ x = strip line).
  { unfold load_remove_list. rewrite elem_of_list_to_set, list_elem_of_In, in_map_iff.
    split.
    - intros (line & <- & Hline). apply filter_In in Hline as [Hline Hne].
      apply negb_true_iff, String.eqb_neq in Hne.
      split; [done|]. exists line. by rewrite list_elem_of_In.
    - intros (Hne & line & Hline & ->). exists line. split; [done|].
      apply filter_In. split; [by apply list_elem_of_In|].
      by apply negb_true_iff, String.eqb_neq. }
  split; [done|]. intros (_ & line & _ & ->)%Hiff.
  destruct (strip_spec line) as (pre & post & _ & _ & _ & Hf & Hl). done.
Qed.

(** X13.  The remove list.  An identifier is in the set read from the
    remove file exactly when it is not empty and is some line of the
    file with the white space at both ends removed: blank lines give
    nothing, duplicates count once, and no member starts or ends with
    white space; a file of blank lines only gives the empty set. *)
Theorem remove_list_members content :
  (∀ x, x ∈ load_remove_list content ↔
        x ≠ "" ∧ ∃ line, line ∈ readlines content ∧ x = strip line) ∧
  (∀ x, x ∈ load_remove_list content →
        first_is_space x = false ∧ last_is_space x = false) ∧
  ((∀ line, line ∈ readlines content → strip line = "") →
   load_remove_list content = ∅).
Proof.
  split; [|split].
  - intros x. apply remove_list_members_aux.
  - intros x. apply remove_list_members_aux.
  - intros Hblank. apply set_eq. intros x.
    rewrite (proj1 (remove_list_members_aux content x)).
    split; [|by intros ?%elem_of_empty].
    intros (Hne & line & Hline & ->). by destruct Hne; apply Hblank.
Qed.

Lemma filter_alignment_sublist records remove_ids :
  sublist (filter_alignment records remove_ids) records.
Proof.
  unfold filter_alignment. induction records as [|rec records IH]; simpl.
  - apply sublist_nil.
  - destruct (negb _); [by apply sublist_skip|by apply sublist_cons].
Qed.

(** X14.  The filtered alignment.  With the set read from the remove
    file, [filter_alignment] writes exactly the records whose
    identifier is not a stripped, non-blank line of that file, in the
    order of the input; in particular a record with an empty
    identifier is always kept, filtering again changes nothing, and no
    written record has a listed identifier. *)
Theorem filter_alignment_keeps_unlisted records remove_content :
  let remove_ids := load_remove_list remove_content in
  let written := filter_alignment records remove_ids in
  (∀ rec, rec ∈ written ↔
     rec ∈ records ∧
     ¬ (rec_id rec ≠ "" ∧
        ∃ line, line ∈ readlines remove_content ∧ rec_id rec = strip line)) ∧
  sublist written records ∧
  (∀ rec, rec ∈ records → rec_id rec = "" → rec ∈ written) ∧
  filter_alignment written remove_ids = written.
Proof.
  intros remove_ids written.
  assert (Hmem : ∀ rec, rec ∈ written ↔ rec ∈ records ∧ rec_id rec ∉ remove_ids).
  { intros rec. subst written. unfold filter_alignment.
    rewrite !list_elem_of_In, filter_In, negb_true_iff, bool_decide_eq_false.
    done. }
  split; [|split; [|split]].
  - intros rec. rewrite Hmem. subst remove_ids.
    by rewrite (proj1 (remove_list_members_aux remove_content (rec_id rec))).
  - apply filter_alignment_sublist.
  - intros rec Hrec Hid. apply Hmem. split; [done|].
    subst remove_ids.
    rewrite (proj1 (remove_list_members_aux remove_content (rec_id rec))).
    intros [Hne _]. done.
  - clear Hmem. subst written. unfold filter_alignment.
    induction records as [|rec records IH]; simpl; [done|].
    destruct (negb (bool_decide (rec_id rec ∈ remove_ids))) eqn:Hrec; simpl;
      [by rewrite Hrec, IH|apply IH].
Qed.

(** ** The further theorems at concrete inputs *)

Lemma rerun_writes_nothing_witness :
  (∀ f, terminated (default "" ((∅ : gmap string string) !! f)) = true) ∧
  forallb clean_reads_row clean_reads_table = true ∧
  forallb clean_contigs_row clean_contigs_table = true ∧
  fs (run_pipeline "reads.tab" "contigs.tab" "clades" auriclass_clade_II
        (fs (run_pipeline "reads.tab" "contigs.tab" "clades" auriclass_clade_II
               ∅ None clean_reads_table clean_contigs_table))
        (report_tsv (run_pipeline "reads.tab" "contigs.tab" "clades"
                       auriclass_clade_II ∅ None clean_reads_table
                       clean_contigs_table))
        clean_reads_table clean_contigs_table) =
  fs (run_pipeline "reads.tab" "contigs.tab" "clades" auriclass_clade_II
        ∅ None clean_reads_table clean_contigs_table).
Proof.
  assert (Hfiles : ∀ f, terminated (default "" ((∅ : gmap string string) !! f)) = true).
  { intros f. rewrite lookup_empty. reflexivity. }
  split; [exact Hfiles|]. split; [reflexivity|]. split; [reflexivity|].
  exact (rerun_writes_nothing "reads.tab" "contigs.tab" "clades" auriclass_clade_II
           ∅ None clean_reads_table clean_contigs_table Hfiles eq_refl eq_refl).
Defined.

Lemma run_keeps_files_duplicate_free_witness :
  (∀ f, terminated (default "" ((∅ : gmap string string) !! f)) = true) ∧
  (∀ f, NoDup (file_ids (summary_header "clades" f)
                 (default "" ((∅ : gmap string string) !! f)))) ∧
  forallb clean_reads_row clean_reads_table = true ∧
  forallb clean_contigs_row clean_contigs_table = true ∧
  NoDup (file_ids (summary_header "clades" (SUMMARY_FILE "clades"))
           (default ""
              (fs (run_pipeline "reads.tab" "contigs.tab" "clades"
                     auriclass_clade_II ∅ None clean_reads_table
                     clean_contigs_table) !! SUMMARY_FILE "clades"))).
Proof.
  assert (Hfiles : ∀ f, terminated (default "" ((∅ : gmap string string) !! f)) = true).
  { intros f. rewrite lookup_empty. reflexivity. }
  assert (Hnodup : ∀ f, NoDup (file_ids (summary_header "clades" f)
                                 (default "" ((∅ : gmap string string) !! f)))).
  { intros f. rewrite lookup_empty. apply NoDup_nil_2. }
  split; [exact Hfiles|]. split; [exact Hnodup|].
  split; [reflexivity|]. split; [reflexivity|].
  exact (run_keeps_files_duplicate_free "reads.tab" "contigs.tab" "clades"
           auriclass_clade_II ∅ None clean_reads_table clean_contigs_table
           Hfiles Hnodup eq_refl eq_refl (SUMMARY_FILE "clades")).
Defined.

Lemma run_only_appends_witness :
  ({[ "clades/Clade_II.reads.tab" := "S0" ++ TAB ++ "a" ++ TAB ++ "b" ++ LF ]}
     : gmap string string) !! "clades/Clade_II.reads.tab" =
    Some ("S0" ++ TAB ++ "a" ++ TAB ++ "b" ++ LF) ∧
  ∃ suffix,
    fs (run_pipeline "reads.tab" "contigs.tab" "clades" auriclass_clade_II
          {[ "clades/Clade_II.reads.tab" := "S0" ++ TAB ++ "a" ++ TAB ++ "b" ++ LF ]}
          None clean_reads_table clean_contigs_table)
      !! "clades/Clade_II.reads.tab" =
    Some (("S0" ++ TAB ++ "a" ++ TAB ++ "b" ++ LF) ++ suffix).
Proof.
  split; [reflexivity|].
  exact (run_only_appends "reads.tab" "contigs.tab" "clades" auriclass_clade_II
           {[ "clades/Clade_II.reads.tab" := "S0" ++ TAB ++ "a" ++ TAB ++ "b" ++ LF ]}
           None clean_reads_table clean_contigs_table
           "clades/Clade_II.reads.tab" _ eq_refl).
Defined.

Lemma run_writes_only_ledger_files_witness :
  ("clades/notes.txt" ∉ ledger_targets "clades") ∧
  fs (run_pipeline "reads.tab" "contigs.tab" "clades" auriclass_clade_II
        {[ "clades/notes.txt" := "keep" ]} None clean_reads_table
        clean_contigs_table) !! "clades/notes.txt" =
  ({[ "clades/notes.txt" := "keep" ]} : gmap string string) !! "clades/notes.txt".
Proof.
  assert (Hg : "clades/notes.txt" ∉ ledger_targets "clades").
  { apply (bool_decide_unpack ("clades/notes.txt" ∉ ledger_targets "clades")).
    vm_compute. exact I. }
  split; [exact Hg|].
  exact (run_writes_only_ledger_files "reads.tab" "contigs.tab" "clades"
           auriclass_clade_II {[ "clades/notes.txt" := "keep" ]} None
           clean_reads_table clean_contigs_table "clades/notes.txt" Hg).
Defined.

Lemma committed_row_known_to_next_run_witness :
  terminated (default "" ((∅ : gmap string string) !! "clades/Clade_I.reads.tab")) = true ∧
  clean_id "S1" = true ∧ no_newline ("r1.fq.gz" ++ TAB ++ "r2.fq.gz") = true ∧
  is_header None ("S1" ++ TAB ++ ("r1.fq.gz" ++ TAB ++ "r2.fq.gz") ++ LF) = false ∧
  ("S1" ∉ known_ids (start ∅ None) "clades/Clade_I.reads.tab" None) ∧
  eval (append_line_if_not_exists "clades/Clade_I.reads.tab" "" "S1" None)
       (start (fs (exec (append_line_if_not_exists "clades/Clade_I.reads.tab"
                           ("S1" ++ TAB ++ ("r1.fq.gz" ++ TAB ++ "r2.fq.gz") ++ LF)
                           "S1" None) (start ∅ None))) None) = false.
Proof.
  assert (Hnew : "S1" ∉ known_ids (start ∅ None) "clades/Clade_I.reads.tab" None).
  { apply (bool_decide_unpack
             ("S1" ∉ known_ids (start ∅ None) "clades/Clade_I.reads.tab" None)).
    vm_compute. exact I. }
  split; [reflexivity|]. split; [reflexivity|]. split; [reflexivity|].
  split; [reflexivity|]. split; [exact Hnew|].
  exact (proj2 (proj2
    (committed_row_known_to_next_run ∅ None None "clades/Clade_I.reads.tab" "S1"
       ("r1.fq.gz" ++ TAB ++ "r2.fq.gz") None "" eq_refl eq_refl eq_refl eq_refl
       Hnew))).
Defined.

Lemma isolate_with_contigs_commits_three_rows_witness :
  returncode (auriclass_clade_II "r1.fq.gz") = 0%Z ∧
  report_after (auriclass_clade_II "r1.fq.gz") =
    Some [["Sample"; "Clade"]; ["sample"; "Clade II"]] ∧
  strip "Clade II" ∈ allowed_clades ∧
  ({[ "S1" := "S1.fa" ]} : gmap string string) !! "S1" = Some "S1.fa" ∧
  "S1.fa" ≠ "" ∧
  fs (exec (process_sample "clades" auriclass_clade_II {[ "S1" := "S1.fa" ]}
              ("S1", ("r1.fq.gz", "r2.fq.gz"))) (start ∅ None))
    !! clade_contigs_file "clades" (strip "Clade II") =
  (if bool_decide ("S1" ∈ known_ids (start ∅ None)
                            (clade_contigs_file "clades" (strip "Clade II")) None)
   then fs (start ∅ None) !! clade_contigs_file "clades" (strip "Clade II")
   else Some (default "" (fs (start ∅ None)
                            !! clade_contigs_file "clades" (strip "Clade II"))
              ++ "S1" ++ TAB ++ "S1.fa" ++ LF)).
Proof.
  assert (Hin : strip "Clade II" ∈ allowed_clades).
  { apply (bool_decide_unpack (strip "Clade II" ∈ allowed_clades)).
    vm_compute. exact I. }
  assert (Hne : "S1.fa" ≠ "") by discriminate.
  split; [reflexivity|]. split; [reflexivity|]. split; [exact Hin|].
  split; [reflexivity|]. split; [exact Hne|].
  exact (proj1 (proj2
    (isolate_with_contigs_commits_three_rows "clades" auriclass_clade_II
       {[ "S1" := "S1.fa" ]} "S1" "r1.fq.gz" "r2.fq.gz" (start ∅ None)
       ["Sample"; "Clade"] "sample" "Clade II" [] [] "S1.fa"
       eq_refl eq_refl Hin eq_refl Hne))).
Defined.

Lemma unparseable_report_writes_nothing_witness :
  returncode (auriclass_header_only "r1.fq.gz") = 0%Z ∧
  report_after (auriclass_header_only "r1.fq.gz") = Some [["Sample"; "Clade"]] ∧
  (List.length [["Sample"; "Clade"]] < 2 ∨
   ∃ row, nth_error [["Sample"; "Clade"]] 1 = Some row ∧ List.length row < 2)%nat ∧
  fs (exec (process_sample "clades" auriclass_header_only ∅
              ("S1", ("r1.fq.gz", "r2.fq.gz"))) (start ∅ None)) = ∅.
Proof.
  assert (Hshape : (List.length [["Sample"; "Clade"]] < 2 ∨
     ∃ row, nth_error [["Sample"; "Clade"]] 1 = Some row ∧ List.length row < 2)%nat).
  { left. simpl. lia. }
  split; [reflexivity|]. split; [reflexivity|]. split; [exact Hshape|].
  exact (proj1 (unparseable_report_writes_nothing "clades" auriclass_header_only ∅
                  "S1" "r1.fq.gz" "r2.fq.gz" (start ∅ None) [["Sample"; "Clade"]]
                  eq_refl eq_refl Hshape)).
Defined.

Lemma ledger_file_names_apart_witness :
  "Clade I" ∈ allowed_clades ∧ "Clade II" ∈ allowed_clades ∧
  clade_reads_file "clades/" "Clade I" ≠ clade_contigs_file "clades/" "Clade II".
Proof.
  assert (H1 : "Clade I" ∈ allowed_clades).
  { apply (bool_decide_unpack ("Clade I" ∈ allowed_clades)). vm_compute. exact I. }
  assert (H2 : "Clade II" ∈ allowed_clades).
  { apply (bool_decide_unpack ("Clade II" ∈ allowed_clades)). vm_compute. exact I. }
  split; [exact H1|]. split; [exact H2|].
  exact (proj1 (proj2 (proj2
    (ledger_file_names_apart "clades/" "Clade I" "Clade II" H1 H2)))).
Defined.

Lemma reads_dict_last_row_wins_witness :
  startswith "#" "S1" = false ∧
  ∀ v, ("S1", v) ∈
         eval (load_reads "reads.tab"
                 ([["S1"; "old1"; "old2"]; ["S2"; "a"; "b"]] ++ [["S1"; "new1"; "new2"]]))
              (start ∅ None)
       ↔ v = ("new1", "new2").
Proof.
  split; [reflexivity|].
  exact (proj1 (proj2
    (reads_dict_last_row_wins "reads.tab" [["S1"; "old1"; "old2"]; ["S2"; "a"; "b"]]
       "S1" "new1" "new2" (start ∅ None) eq_refl))).
Defined.

Lemma contigs_dict_last_row_wins_witness :
  startswith "#" "S1" = false ∧
  eval (load_contigs "contigs.tab" ([["S1"; "old.fa"]] ++ [["S1"; "new.fa"]]))
       (start ∅ None) !! "S1" = Some "new.fa".
Proof.
  split; [reflexivity|].
  exact (proj1
    (contigs_dict_last_row_wins "contigs.tab" [["S1"; "old.fa"]] "S1" "new.fa"
       (start ∅ None) eq_refl)).
Defined.

(** ** The summary file *)

(** X15.  The summary file starts with its header.  When the ledger
    directory has no summary file, the run creates it, and at the end of
    the run the file is the header line followed by the summary rows the
    run appended. *)
Theorem summary_file_created_with_header READS_TAB CONTIGS_TAB CLADE_DIR auriclass
    (files : gmap string string) report reads_rows contigs_rows :
  files !! SUMMARY_FILE CLADE_DIR = None →
  ∃ rows,
    fs (run_pipeline READS_TAB CONTIGS_TAB CLADE_DIR auriclass
          files report reads_rows contigs_rows) !! SUMMARY_FILE CLADE_DIR =
    Some ((HEADER_LINE ++ LF) ++ rows).
Proof.
  intros Habsent. unfold run_pipeline.
  destruct (main_ledgers READS_TAB CONTIGS_TAB CLADE_DIR auriclass
              reads_rows contigs_rows (start files report)) as [-> _].
  apply do_calls_keep_prefix.
  unfold create_summary_file, exec, mbind, M_bind, path_exists, write_text,
    set_ids, mret, M_ret. simpl.
  rewrite bool_decide_false by (rewrite Habsent; by intros [? ?]). simpl.
  by rewrite lookup_insert_eq.
Qed.

(** ** Isolates that are skipped *)

Lemma skipped_sample_no_clade auriclass reads1 :
  skipped_sample auriclass reads1 → sample_clade auriclass reads1 = None.
Proof.
  unfold skipped_sample, sample_clade, unparseable.
  intros [Hrc|[Hnone|[(rows & Hrows & Hshape)|(h & f0 & f1 & more & rest & Hrows & Hnot)]]].
  - apply Z.eqb_neq in Hrc. by rewrite Hrc.
  - rewrite Hnone. by destruct (negb _).
  - rewrite Hrows. destruct (negb _); [done|].
    destruct rows as [|header [|[|g0 [|g1 more]] rest]]; try done;
      exfalso; destruct Hshape as [Hlen|(row & Hrow & Hlen)];
      simpl in *; try lia; injection Hrow as <-; simpl in Hlen; lia.
  - rewrite Hrows. destruct (negb _); [done|]. by rewrite bool_decide_false.
Qed.

(** X16.  A skipped isolate leaves no trace in the ledgers.  When the
    classifier fails for an isolate, or its report is missing or cannot
    be parsed, or the clade is not allowed, the loop over a dictionary
    with that isolate ends with the files and the sets of known
    identifiers of the loop over the dictionary without it: the
    isolates before and after it are committed as if it were not there. *)
Theorem skipped_isolate_leaves_no_trace CLADE_DIR auriclass contigs_dict
    (before after : Reads_dict) isolate_id reads1 reads2 st :
  skipped_sample auriclass reads1 →
  let with_it := exec (main_loop CLADE_DIR auriclass
                         (before ++ (isolate_id, (reads1, reads2)) :: after)%list
                         contigs_dict) st in
  let without := exec (main_loop CLADE_DIR auriclass (before ++ after)%list
                         contigs_dict) st in
  fs with_it = fs without ∧ file_written_ids with_it = file_written_ids without.
Proof.
  intros Hskip%skipped_sample_no_clade with_it without.
  assert (Hcalls :
    all_calls CLADE_DIR auriclass contigs_dict
      (before ++ (isolate_id, (reads1, reads2)) :: after)%list =
    all_calls CLADE_DIR auriclass contigs_dict (before ++ after)%list).
  { unfold all_calls. rewrite !map_app, !concat_app. simpl.
    by rewrite Hskip. }
  pose proof (main_loop_ledgers CLADE_DIR auriclass contigs_dict
                (before ++ (isolate_id, (reads1, reads2)) :: after)%list st) as H1.
  pose proof (main_loop_ledgers CLADE_DIR auriclass contigs_dict
                (before ++ after)%list st) as H2.
  rewrite Hcalls in H1.
  apply (same_ledgers_trans _ _ _ H1). by apply same_ledgers_sym.
Qed.

(** ** Ledgers that agree with each other *)

Lemma clade_files_apart CLADE_DIR clade1 clade2 :
  clade1 ∈ allowed_clades → clade2 ∈ allowed_clades →
  clade_reads_file CLADE_DIR clade1 ≠ clade_contigs_file CLADE_DIR clade2 ∧
  clade_reads_file CLADE_DIR clade1 ≠ SUMMARY_FILE CLADE_DIR ∧
  clade_contigs_file CLADE_DIR clade1 ≠ SUMMARY_FILE CLADE_DIR ∧
  (clade_contigs_file CLADE_DIR clade1 = clade_contigs_file CLADE_DIR clade2 →
   clade1 = clade2).
Proof.
  intros H1 H2. apply allowed_clades_cases in H1, H2.
  unfold clade_reads_file, clade_contigs_file, SUMMARY_FILE.
  split; [|split; [|split]]; intros Heq;
    apply path_join_inj in Heq;
    destruct H1 as [->|[->|[->|[->|[->| ->]]]]];
    try destruct H2 as [->|[->|[->|[->|[->| ->]]]]];
    first [reflexivity | discriminate Heq].
Qed.

Lemma do_call_ids hdr st c :
  consistent hdr st → well_formed_call hdr c →
  ∀ g, ids_in_file hdr (exec (do_call hdr c) st) g =
       if decide (c.1.1 = g) then {[ c.2 ]} ∪ ids_in_file hdr st g
       else ids_in_file hdr st g.
Proof.
  destruct c as [[filename line] isolate_id].
  intros Hcons (payload & -> & Hclean & Hpay & Hhead) g. cbn [fst snd].
  rewrite exec_do_call, append_exec, known_ids_consistent by done.
  case_bool_decide as Hknown.
  - change (ids_in_file hdr (skip_state st filename isolate_id (hdr filename)) g)
      with (ids_in_file hdr st g).
    case_decide as Hg; [subst g|done].
    apply set_eq. intros x. rewrite elem_of_union, elem_of_singleton.
    split; [by right|]. by intros [->|?].
  - unfold ids_in_file. rewrite file_content_commit.
    case_decide as Hg; [subst g|done].
    apply load_existing_ids_append; try done. apply Hcons.
Qed.

(** After a sequence of well-formed calls a file holds the identifiers
    it held and those it was called for. *)
Lemma do_calls_ids hdr cs st :
  consistent hdr st → Forall (well_formed_call hdr) cs →
  ∀ g x, x ∈ ids_in_file hdr (exec (do_calls hdr cs) st) g ↔
         x ∈ ids_in_file hdr st g ∨ ∃ l, (g, l, x) ∈ cs.
Proof.
  revert st. induction cs as [|c cs IH]; intros st Hcons Hwf g x.
  - change (exec (do_calls hdr []) st) with st.
    split; [by left|]. intros [?|(l & Hl)]; [done|]. by apply elem_of_nil in Hl.
  - apply Forall_cons in Hwf as [Hc Hcs].
    unfold do_calls. rewrite exec_for_each_cons.
    destruct (do_call_consistent hdr st c Hcons Hc) as (Hcons1 & _).
    unfold do_calls in IH. rewrite (IH _ Hcons1 Hcs g x).
    rewrite (do_call_ids hdr st c Hcons Hc g).
    destruct c as [[f l0] i]. simpl.
    setoid_rewrite elem_of_cons.
    case_decide as Hg.
    + subst g. rewrite elem_of_union, elem_of_singleton. split.
      * intros [[->|?]|(l & Hl)]; [right; exists l0; by left|by left|].
        right. exists l. by right.
      * intros [?|(l & [[= -> ->]|Hl])]; [left; by right|left; by left|].
        right. by exists l.
    + split.
      * intros [?|(l & Hl)]; [by left|]. right. exists l. by right.
      * intros [?|(l & [[= -> -> ->]|Hl])]; [by left|done|]. right. by exists l.
Qed.

(** The calls of a run come in groups: a summary call goes with a reads
    call for the same identifier, and a contigs call with a reads call
    on the same clade. *)
Lemma ledger_calls_groups CLADE_DIR auriclass contigs_dict item x :
  let cs := ledger_calls CLADE_DIR auriclass contigs_dict item in
  ((∃ l, (SUMMARY_FILE CLADE_DIR, l, x) ∈ cs) ↔
   ∃ clade l, clade ∈ allowed_clades ∧ (clade_reads_file CLADE_DIR clade, l, x) ∈ cs) ∧
  (∀ clade l, clade ∈ allowed_clades →
     (clade_contigs_file CLADE_DIR clade, l, x) ∈ cs →
     ∃ l', (clade_reads_file CLADE_DIR clade, l', x) ∈ cs).
Proof.
  destruct item as [isolate_id [reads1 reads2]]. unfold ledger_calls.
  destruct (sample_clade auriclass reads1) as [clade0|] eqn:Hclade0.
  2:{ simpl. split; [split|].
      - intros (l & Hl). by apply elem_of_nil in Hl.
      - intros (clade & l & _ & Hl). by apply elem_of_nil in Hl.
      - intros clade l _ Hl. by apply elem_of_nil in Hl. }
  apply sample_clade_allowed in Hclade0.
  set (mid := match contigs_dict !! isolate_id with
              | Some p => _ | None => _ end).
  assert (Hmid : ∀ c, c ∈ mid →
            c.1.1 = clade_contigs_file CLADE_DIR clade0 ∧ c.2 = isolate_id).
  { intros c. subst mid. destruct (contigs_dict !! isolate_id) as [p|];
      [destruct (String.eqb p "")|]; try by intros ?%elem_of_nil.
    by intros ->%list_elem_of_singleton. }
  clearbody mid. simpl.
  assert (Hreads : ∀ clade l, clade ∈ allowed_clades →
    (clade_reads_file CLADE_DIR clade, l, x)
      ∈ (clade_reads_file CLADE_DIR clade0,
         isolate_id ++ TAB ++ reads1 ++ TAB ++ reads2 ++ LF, isolate_id)
        :: mid ++ [(SUMMARY_FILE CLADE_DIR, isolate_id ++ TAB ++ clade0 ++ LF,
                    isolate_id)] →
    x = isolate_id).
  { intros clade l Hin Hl.
    destruct (clade_files_apart CLADE_DIR clade clade0 Hin Hclade0)
      as (Hrc & Hrs & _ & _).
    apply elem_of_cons in Hl as [[= _ _ ->]|Hl]; [done|].
    apply elem_of_app in Hl as [Hl|Hl].
    - apply Hmid in Hl as [Hf _]. simpl in Hf. done.
    - apply list_elem_of_singleton in Hl. by injection Hl as Hf _ _. }
  split; [split|].
  - intros (l & Hl). exists clade0.
    destruct (clade_files_apart CLADE_DIR clade0 clade0 Hclade0 Hclade0)
      as (_ & Hrs & Hcs & _).
    apply elem_of_cons in Hl as [[= Hf _ _]|Hl]; [done|].
    apply elem_of_app in Hl as [Hl|Hl].
    + apply Hmid in Hl as [Hf _]. simpl in Hf. done.
    + apply list_elem_of_singleton in Hl. injection Hl as _ ->.
      eexists. split; [done|]. by apply elem_of_cons; left.
  - intros (clade & l & Hin & Hl). rewrite (Hreads clade l Hin Hl).
    eexists. apply elem_of_cons. right. apply elem_of_app. right.
    by apply list_elem_of_singleton.
  - intros clade l Hin Hl.
    destruct (clade_files_apart CLADE_DIR clade0 clade Hclade0 Hin)
      as (Hrc & _ & _ & _).
    destruct (clade_files_apart CLADE_DIR clade clade0 Hin Hclade0)
      as (_ & _ & Hcs & Hinj).
    apply elem_of_cons in Hl as [[= Hf _ _]|Hl]; [done|].
    apply elem_of_app in Hl as [Hl|Hl].
    + apply Hmid in Hl as [Hf Hx]. simpl in Hf, Hx. subst x.
      apply Hinj in Hf as ->. eexists. by apply elem_of_cons; left.
    + apply list_elem_of_singleton in Hl. by injection Hl as Hf _ _.
Qed.

Lemma all_calls_groups CLADE_DIR auriclass contigs_dict reads_dict x :
  let cs := all_calls CLADE_DIR auriclass contigs_dict reads_dict in
  ((∃ l, (SUMMARY_FILE CLADE_DIR, l, x) ∈ cs) ↔
   ∃ clade l, clade ∈ allowed_clades ∧ (clade_reads_file CLADE_DIR clade, l, x) ∈ cs) ∧
  (∀ clade l, clade ∈ allowed_clades →
     (clade_contigs_file CLADE_DIR clade, l, x) ∈ cs →
     ∃ l', (clade_reads_file CLADE_DIR clade, l', x) ∈ cs).
Proof.
  unfold all_calls. induction reads_dict as [|item items IH]; simpl.
  { split; [split|].
    - intros (l & Hl). by apply elem_of_nil in Hl.
    - intros (clade & l & _ & Hl). by apply elem_of_nil in Hl.
    - intros clade l _ Hl. by apply elem_of_nil in Hl. }
  destruct IH as [IH1 IH2].
  destruct (ledger_calls_groups CLADE_DIR auriclass contigs_dict item x) as [G1 G2].
  simpl in G1, G2. setoid_rewrite elem_of_app. split; [split|].
  - intros (l & [Hl|Hl]).
    + destruct (proj1 G1 (ex_intro _ l Hl)) as (clade & l' & Hin & Hl').
      exists clade, l'. auto.
    + destruct (proj1 IH1 (ex_intro _ l Hl)) as (clade & l' & Hin & Hl').
      exists clade, l'. auto.
  - intros (clade & l & Hin & [Hl|Hl]).
    + destruct (proj2 G1 (ex_intro _ clade (ex_intro _ l (conj Hin Hl)))) as (l' & Hl').
      exists l'. auto.
    + destruct (proj2 IH1 (ex_intro _ clade (ex_intro _ l (conj Hin Hl)))) as (l' & Hl').
      exists l'. auto.
  - intros clade l Hin [Hl|Hl].
    + destruct (G2 clade l Hin Hl) as (l' & Hl'). exists l'. auto.
    + destruct (IH2 clade l Hin Hl) as (l' & Hl'). exists l'. auto.
Qed.

Lemma create_summary_file_ids CLADE_DIR st g :
  ids_in_file (summary_header CLADE_DIR) (exec (create_summary_file CLADE_DIR) st) g =
  ids_in_file (summary_header CLADE_DIR) st g.
Proof.
  unfold create_summary_file, exec, mbind, M_bind, path_exists, write_text,
    set_ids, mret, M_ret. simpl.
  case_bool_decide as Hex; simpl; [done|].
  unfold ids_in_file, file_content. simpl.
  destruct (decide (SUMMARY_FILE CLADE_DIR = g)) as [<-|Hne].
  - rewrite lookup_insert_eq, summary_header_summary.
    destruct (fs st !! SUMMARY_FILE CLADE_DIR) eqn:Hs; [destruct Hex; eauto|].
    simpl. by vm_compute.
  - by rewrite lookup_insert_ne.
Qed.

(** X17.  The three kinds of ledger stay coupled.  When every file of
    the ledger directory is empty or ends with a line feed, the loaded
    rows are clean, and at the start the identifiers of the summary file
    are exactly those of the reads files of the allowed clades while
    every contigs file holds only identifiers of the reads file of its
    clade, the same is true at the end of the run: every isolate of a
    reads ledger is in the summary and conversely, and no contigs row is
    without its reads row. *)
Theorem run_keeps_ledgers_coupled READS_TAB CONTIGS_TAB CLADE_DIR auriclass
    (files : gmap string string) report reads_rows contigs_rows :
  (∀ f, terminated (default "" (files !! f)) = true) →
  forallb clean_reads_row reads_rows = true →
  forallb clean_contigs_row contigs_rows = true →
  coupled CLADE_DIR (start files report) →
  coupled CLADE_DIR
    (run_pipeline READS_TAB CONTIGS_TAB CLADE_DIR auriclass
       files report reads_rows contigs_rows).
Proof.
  intros Hfiles Hreads Hcontigs [Hsum Hcont].
  set (hdr := summary_header CLADE_DIR) in *.
  set (cs := all_calls CLADE_DIR auriclass (contigs_entries contigs_rows)
               (reads_entries reads_rows)).
  assert (Hwf : Forall (well_formed_call hdr) cs).
  { apply all_calls_well_formed;
      [by apply reads_entries_clean|by apply contigs_entries_clean]. }
  assert (Hcons0 : consistent hdr (start files report)).
  { intros f. split; [apply Hfiles|]. intros ids. simpl. by rewrite lookup_empty. }
  destruct (create_summary_file_consistent CLADE_DIR _ Hcons0) as (Hcons1 & _).
  set (st1 := exec (create_summary_file CLADE_DIR) (start files report)) in *.
  pose proof (do_calls_ids hdr cs st1 Hcons1 Hwf) as Hids.
  destruct (main_ledgers READS_TAB CONTIGS_TAB CLADE_DIR auriclass
              reads_rows contigs_rows (start files report)) as [Hfs _].
  fold cs hdr st1 in Hfs.
  assert (Hfinal : ∀ g x,
    x ∈ ids_in_file hdr (run_pipeline READS_TAB CONTIGS_TAB CLADE_DIR auriclass
                           files report reads_rows contigs_rows) g ↔
    x ∈ ids_in_file hdr (start files report) g ∨ ∃ l, (g, l, x) ∈ cs).
  { intros g x.
    pose proof (create_summary_file_ids CLADE_DIR (start files report) g) as Hc.
    fold hdr st1 in Hc. rewrite <- Hc, <- Hids.
    unfold ids_in_file, file_content, run_pipeline. by rewrite Hfs. }
  unfold coupled. cbv zeta. fold hdr. split.
  - intros x. rewrite Hfinal, Hsum.
    destruct (all_calls_groups CLADE_DIR auriclass (contigs_entries contigs_rows)
                (reads_entries reads_rows) x) as [G1 _].
    fold cs in G1. simpl in G1. rewrite G1. split.
    + intros [(clade & Hin & Hx)|(clade & l & Hin & Hl)]; exists clade;
        (split; [done|]); apply Hfinal; [by left|right; by exists l].
    + intros (clade & Hin & Hx). apply Hfinal in Hx as [Hx|(l & Hl)].
      * left. by exists clade.
      * right. by exists clade, l.
  - intros clade Hin x. rewrite !Hfinal.
    destruct (all_calls_groups CLADE_DIR auriclass (contigs_entries contigs_rows)
                (reads_entries reads_rows) x) as [_ G2].
    fold cs in G2. simpl in G2.
    intros [Hx|(l & Hl)]; [left; by apply Hcont|right; by apply (G2 clade l)].
Qed.

(** ** These theorems at concrete inputs *)

Lemma summary_file_created_with_header_witness :
  (∅ : gmap string string) !! SUMMARY_FILE "clades" = None ∧
  ∃ rows,
    fs (run_pipeline "reads.tab" "contigs.tab" "clades" auriclass_clade_II
          ∅ None clean_reads_table clean_contigs_table) !! SUMMARY_FILE "clades" =
    Some ((HEADER_LINE ++ LF) ++ rows).
Proof.
  split; [reflexivity|].
  exact (summary_file_created_with_header "reads.tab" "contigs.tab" "clades"
           auriclass_clade_II ∅ None clean_reads_table clean_contigs_table eq_refl).
Defined.

Lemma skipped_isolate_leaves_no_trace_witness :
  skipped_sample auriclass_fails "r1.fq.gz" ∧
  fs (exec (main_loop "clades" auriclass_fails
              ([("S0", ("a", "b"))] ++ ("S1", ("r1.fq.gz", "r2.fq.gz")) :: [])%list
              ∅) (start ∅ None)) =
  fs (exec (main_loop "clades" auriclass_fails ([("S0", ("a", "b"))] ++ [])%list ∅)
        (start ∅ None)).
Proof.
  assert (Hskip : skipped_sample auriclass_fails "r1.fq.gz").
  { left. discriminate. }
  split; [exact Hskip|].
  exact (proj1 (skipped_isolate_leaves_no_trace "clades" auriclass_fails ∅
                  [("S0", ("a", "b"))] [] "S1" "r1.fq.gz" "r2.fq.gz"
                  (start ∅ None) Hskip)).
Defined.

Lemma run_keeps_ledgers_coupled_witness :
  (∀ f, terminated (default "" ((∅ : gmap string string) !! f)) = true) ∧
  forallb clean_reads_row clean_reads_table = true ∧
  forallb clean_contigs_row clean_contigs_table = true ∧
  coupled "clades" (start ∅ None) ∧
  coupled "clades"
    (run_pipeline "reads.tab" "contigs.tab" "clades" auriclass_clade_II
       ∅ None clean_reads_table clean_contigs_table).
Proof.
  assert (Hfiles : ∀ f, terminated (default "" ((∅ : gmap string string) !! f)) = true).
  { intros f. rewrite lookup_empty. reflexivity. }
  assert (Hempty : ∀ g, ids_in_file (summary_header "clades") (start ∅ None) g = ∅).
  { intros g. unfold ids_in_file, file_content. simpl. rewrite lookup_empty.
    reflexivity. }
  assert (Hcoupled : coupled "clades" (start ∅ None)).
  { unfold coupled. cbv zeta. split.
    - intros x. rewrite Hempty. split; [by intros ?%elem_of_empty|].
      intros (clade & _ & Hx). by rewrite Hempty in Hx.
    - intros clade _. by rewrite !Hempty. }
  split; [exact Hfiles|]. split; [reflexivity|]. split; [reflexivity|].
  split; [exact Hcoupled|].
  exact (run_keeps_ledgers_coupled "reads.tab" "contigs.tab" "clades"
           auriclass_clade_II ∅ None clean_reads_table clean_contigs_table
           Hfiles eq_refl eq_refl Hcoupled).
Defined.
